(** * Rule rows, intercept options and the breakpointed-response card

    A shallow embedding of the model-facing logic of three view components:
    - [RuleRow] (src/components/mock/rule-row.tsx),
    - [InterceptOption] (the intercept option card),
    - [ExchangeBreakpointResponseCard]
      (src/components/view/exchange-breakpoint-response-card.tsx).

    JavaScript objects are identified by their reference: the rule, its
    matcher array, the matchers and the handler all live in one store, and
    the component methods are store transformers. *)

From Stdlib Require Import ZArith Floats.SpecFloat.
From stdpp Require Import gmap strings list fin_maps.

Local Open Scope Z_scope.

(** ** JavaScript array primitives used by the components *)

Module Js.

(** [Array.prototype.splice(start, deleteCount, ...items)], the contents
    of the array after the call.  [start] and [deleteCount] are the
    arguments after their conversion to integers; a negative [start]
    counts from the end, and both are clamped to the array. *)
Definition splice {A : Type} (start deleteCount : Z) (items l : list A)
  : list A :=
  let len := Z.of_nat (length l) in
  let actualStart :=
    if start <? 0 then Z.max (len + start) 0 else Z.min start len in
  let actualDeleteCount :=
    Z.min (Z.max deleteCount 0) (len - actualStart) in
  take (Z.to_nat actualStart) l
    ++ items
    ++ drop (Z.to_nat (actualStart + actualDeleteCount)) l.

(** [Array.prototype.push(item)], the contents after the call. *)
Definition push {A : Type} (item : A) (l : list A) : list A := l ++ [item].

(** Truthiness of a string or undefined value: [undefined] and the empty
    string are falsy. *)
Definition truthy_string (s : option string) : bool :=
  match s with
  | None => false
  | Some s => negb (String.eqb s "")
  end.

End Js.

(** ** The object store *)

(** Object references. Two references are the same JavaScript object
    exactly when they are equal. *)
Abbreviation loc := positive (only parsing).

(** The matchers of mockttp, as far as the rule row tells them apart:
    [instanceof matchers.MethodMatcher] or not.  [method] is the numeric
    value of the [Method] enum. *)
Inductive Matcher : Type :=
| MethodMatcher (method : Z)
| OtherMatcher (type : string).

(** [HtkMockRule], with the two fields the rule row reads and writes.
    Both hold references: [matchers] to an array object, [handler] to a
    handler object. *)
Record HtkMockRule : Type := mkRule {
  matchers : loc;
  handler : loc;
}.

Inductive Obj : Type :=
| ORule (rule : HtkMockRule)
| OArray (elems : list loc)
| OMatcher (m : Matcher)
| OHandler (type : string).

Abbreviation Heap := (gmap loc Obj) (only parsing).

Definition getRule (h : Heap) (l : loc) : option HtkMockRule :=
  match h !! l with Some (ORule r) => Some r | _ => None end.

Definition getArray (h : Heap) (l : loc) : option (list loc) :=
  match h !! l with Some (OArray ms) => Some ms | _ => None end.

Definition getMatcher (h : Heap) (l : loc) : option Matcher :=
  match h !! l with Some (OMatcher m) => Some m | _ => None end.

(** [rule.matchers], read through the rule: the array the rule points to. *)
Definition ruleMatchers (h : Heap) (r : loc) : option (list loc) :=
  rule ← getRule h r; getArray h (matchers rule).

(** The reference held in [rule.matchers]. *)
Definition ruleMatchersRef (h : Heap) (r : loc) : option loc :=
  matchers <$> getRule h r.

(** [rule.handler]. *)
Definition ruleHandler (h : Heap) (r : loc) : option loc :=
  handler <$> getRule h r.

(** ** RuleRow *)

(** What [render] hands to [RowContainer] and its children. *)
Record RowView : Type := mkRowView {
  borderColor : string;
  rowTabIndex : option Z;
  (* [onClick] is [toggleCollapse] when collapsed, undefined otherwise *)
  rowClickable : bool;
  (* [RuleMenu] when expanded, [DragHandle] when collapsed *)
  showsMenu : bool;
  (* the details, when expanded: the matcher given to [InitialMatcherRow] *)
  initialRow : option (option loc);
  (* each [ExistingMatcherRow]: the index its [onChange] passes to
     [updateMatcher], and its matcher *)
  existingRows : list (Z * loc);
  newMatcherRow : bool;
  (* the handler given to [HandlerSelector] and [HandlerConfiguration] *)
  handlerShown : option loc;
}.

Module RuleRow.

Record RuleRowProps : Type := mkProps {
  value : loc;
  collapsed : bool;
  rowDisabled : bool;
}.

(** [this.props.value.matchers.push(matcher)] *)
Definition addMatcher (this : RuleRowProps) (matcher : loc) (h : Heap)
  : option Heap :=
  rule ← getRule h (value this);
  ms ← getArray h (matchers rule);
  Some (<[matchers rule := OArray (Js.push matcher ms)]> h).

(** [this.props.value.matchers.splice(index, 1, ...matchers)] *)
Definition updateMatcher (this : RuleRowProps) (index : Z)
    (new_matchers : list loc) (h : Heap) : option Heap :=
  rule ← getRule h (value this);
  ms ← getArray h (matchers rule);
  Some (<[matchers rule := OArray (Js.splice index 1 new_matchers ms)]> h).

(** [rule.matchers = rule.matchers.filter(m => m !== matcher)]:
    [filter] allocates a new array, which is then stored in the rule. *)
Definition deleteMatcher (this : RuleRowProps) (matcher : loc) (h : Heap)
  : option Heap :=
  rule ← getRule h (value this);
  ms ← getArray h (matchers rule);
  let filtered := filter (λ m, m ≠ matcher) ms in
  let a := fresh (dom h) in
  let h1 := <[a := OArray filtered]> h in
  Some (<[value this := ORule (mkRule a (handler rule))]> h1).

(** [this.props.value.handler = handler] *)
Definition updateHandler (this : RuleRowProps) (new_handler : loc)
    (h : Heap) : option Heap :=
  rule ← getRule h (value this);
  Some (<[value this := ORule (mkRule (matchers rule) new_handler)]> h).


Section Render.

(** [Method[k]]: the name the [Method] enum of mockttp gives to the
    number [k], undefined for a number outside the enum. *)
Variable Method : Z → option string.

(** [getMethodColor] of model/exchange-colors. *)
Variable getMethodColor : string → string.

(** [rule.matchers.length ? rule.matchers[0] : undefined] *)
Definition initialMatcher (ms : list loc) : option loc :=
  if Z.of_nat (length ms) =? 0 then None else ms !! 0%nat.

(** The [method] variable of [render]. *)
Definition displayedMethod (h : Heap) (ms : list loc) : option string :=
  match initialMatcher ms with
  | Some m =>
      match getMatcher h m with
      | Some (MethodMatcher k) => Method k
      | _ => Some "unknown"
      end
  | None => None
  end.

(** [method ? getMethodColor(method) : 'transparent'] *)
Definition methodBorderColor (method : option string) : string :=
  if Js.truthy_string method
  then getMethodColor (default "" method)
  else "transparent".

Definition render (this : RuleRowProps) (h : Heap) : option RowView :=
  rule ← getRule h (value this);
  ms ← getArray h (matchers rule);
  let c := collapsed this in
  Some {|
    borderColor := methodBorderColor (displayedMethod h ms);
    rowTabIndex := if c then Some 0 else None;
    rowClickable := c;
    showsMenu := negb c;
    initialRow := if c then None else Some (initialMatcher ms);
    existingRows :=
      if c then []
      else imap (λ i m, (Z.of_nat i + 1, m)) (drop 1 ms);
    newMatcherRow := negb c && (0 <? Z.of_nat (length ms));
    handlerShown := if c then None else Some (handler rule);
  |}.

End Render.

End RuleRow.

(** ** InterceptOption *)

Record InterceptorCustomUiConfig : Type := mkUiConfig {
  columnWidth : Z;
  rowHeight : Z;
  (* React component types are objects, held by reference *)
  configComponent : loc;
  customPill : option loc;
}.

(** The [Interceptor] model object, with the fields the card reads. *)
Record Interceptor : Type := mkInterceptor {
  id : string;
  name : string;
  description : list string;
  isActive : bool;
  isActivable : bool;
  isSupported : bool;
  inProgress : bool;
  uiConfig : option InterceptorCustomUiConfig;
}.

Inductive PillView : Type :=
| CustomPill (component : loc)
| StatusPill (color : option string) (text : string).

(** What the card does to the outside world, in order. *)
Inductive Effect : Type :=
| TrackEvent (category action label : string)
| StoreActivateInterceptor (interceptorId : string) (options : option string)
| ScrollIntoView
| ShowRequests.

Inductive CardBody : Type :=
| ConfigBody (component : loc)
| SummaryBody (paragraphs : list string) (pill : option PillView)
    (loading : bool).

Record CardView : Type := mkCardView {
  cardOrder : Z;
  (* [grid-row: span h; grid-column: span w] of an expanded card *)
  cardSpan : option (Z * Z);
  cardDisabled : bool;
  cardClickable : bool;
  cardTabIndex : option Z;
  cardTitle : string;
  cardBody : CardBody;
}.

Module InterceptOption.

(** The card with its surroundings: the interceptor its props refer to,
    the card's own observable [expanded] field, and the calls it has
    made so far (oldest first). *)
Record World : Type := mkWorld {
  interceptor : Interceptor;
  index : Z;
  expanded : bool;
  effects : list Effect;
}.

Definition emit (e : Effect) (w : World) : World :=
  mkWorld (interceptor w) (index w) (expanded w) (effects w ++ [e]).

Definition setExpanded (b : bool) (w : World) : World :=
  mkWorld (interceptor w) (index w) b (effects w).

Definition getStatusPill (i : Interceptor) : option PillView :=
  match uiConfig i ≫= customPill with
  | Some c => Some (CustomPill c)
  | None =>
      if isActive i then Some (StatusPill (Some "#4caf7d") "Activated")
      else if negb (isActivable i) then
        if isSupported i then Some (StatusPill None "Not available")
        else Some (StatusPill (Some "#e1421f") "Coming soon")
      else None
  end.

(** The style function of [InterceptOptionCard]. *)
Definition cardPlacement (expanded : bool) (index : Z)
    (ui : option InterceptorCustomUiConfig) : Z * option (Z * Z) :=
  match ui with
  | Some c =>
      if negb expanded then (index, None)
      else (Z.max (-1) (index - columnWidth c),
            Some (rowHeight c, columnWidth c))
  | None => (index, None)
  end.

Definition render (w : World) : CardView :=
  let i := interceptor w in
  let isDisabled := negb (isActivable i) in
  let placement := cardPlacement (expanded w) (index w) (uiConfig i) in
  {|
    cardOrder := placement.1;
    cardSpan := placement.2;
    cardDisabled := isDisabled;
    cardClickable := negb (expanded w);
    cardTabIndex :=
      if negb isDisabled && negb (expanded w) then Some 0 else None;
    cardTitle := name i;
    cardBody :=
      match uiConfig i with
      | Some c =>
          if expanded w then ConfigBody (configComponent c)
          else SummaryBody (description i) (getStatusPill i) (inProgress i)
      | None =>
          SummaryBody (description i) (getStatusPill i) (inProgress i)
      end;
  |}.

(** [interceptorStore.activateInterceptor(interceptor.id, options)] *)
Definition activateInterceptor (options : option string) (w : World)
  : World :=
  emit (StoreActivateInterceptor (id (interceptor w)) options) w.

Definition onClick (w : World) : World :=
  let i := interceptor w in
  let w := emit (TrackEvent "Interceptors" "Activated" (id i)) w in
  if negb (isActivable i) then w
  else
    match uiConfig i with
    | Some _ => emit ScrollIntoView (setExpanded true w)
    | None => emit (StoreActivateInterceptor (id i) None) w
    end.

(** The continuation [onClick] attaches to the store's promise. *)
Definition onActivated (successful : bool) (w : World) : World :=
  if successful then
    emit ShowRequests
      (emit (TrackEvent "Interceptors" "Successfully Activated"
               (id (interceptor w))) w)
  else w.

Definition onClose (w : World) : World := setExpanded false w.

(** The operations of the component. *)
Inductive Op : Type :=
| OpRender
| OpOnClick
| OpOnClose
| OpActivateInterceptor (options : option string)
| OpOnActivated (successful : bool).

Definition run (o : Op) (w : World) : World :=
  match o with
  | OpRender => let _ := render w in w
  | OpOnClick => onClick w
  | OpOnClose => onClose w
  | OpActivateInterceptor options => activateInterceptor options w
  | OpOnActivated successful => onActivated successful w
  end.

Definition isStoreCall (e : Effect) : bool :=
  match e with
  | StoreActivateInterceptor _ _ => true
  | _ => false
  end.

(** The calls made to the interceptor store, among the effects. *)
Definition storeCalls (es : list Effect) : list Effect :=
  List.filter isStoreCall es.

End InterceptOption.

(** ** ExchangeBreakpointResponseCard *)

(** JavaScript values, as far as the emitted partial response holds them.
    A number is an IEEE 754 value. *)
Inductive JsValue : Type :=
| VUndefined
| VNumber (x : spec_float)
| VString (s : string).

(** The first argument of [onStatusChange]: [number | '']. *)
Inductive StatusCode : Type :=
| EmptyStatus
| StatusNumber (x : spec_float).

Module ExchangeBreakpointResponseCard.

(** Truthiness of [number | '']: the empty string, both zeros and NaN
    are falsy. *)
Definition truthy (c : StatusCode) : bool :=
  match c with
  | EmptyStatus => false
  | StatusNumber (S754_zero _) => false
  | StatusNumber S754_nan => false
  | StatusNumber _ => true
  end.

(** [statusCode || NaN] *)
Definition orNaN (c : StatusCode) : spec_float :=
  match c with
  | StatusNumber x => if truthy c then x else S754_nan
  | EmptyStatus => S754_nan
  end.

Definition ofOptString (s : option string) : JsValue :=
  match s with Some s => VString s | None => VUndefined end.

(** The object [onStatusChange] hands to [this.props.onChange]:
    [{ statusCode: statusCode || NaN, statusMessage }]. *)
Definition onStatusChange (statusCode : StatusCode)
    (statusMessage : option string) : gmap string JsValue :=
  <["statusCode" := VNumber (orNaN statusCode)]>
    (<["statusMessage" := ofOptString statusMessage]> ∅).

End ExchangeBreakpointResponseCard.

(** ** What the rendered card offers *)

Module CardSession.

(** Whether the card, as [render] draws it, offers an operation: [onClick]
    is bound only while the card is not expanded; the close button, and
    the config component with its [activateInterceptor] and [closeSelf]
    props, exist only in the expanded branch. The continuation of a
    store promise can run at any time. *)
Definition offered (o : InterceptOption.Op) (w : InterceptOption.World)
  : bool :=
  let v := InterceptOption.render w in
  let configShown :=
    match cardBody v with ConfigBody _ => true | SummaryBody _ _ _ => false end
  in
  match o with
  | InterceptOption.OpRender => true
  | InterceptOption.OpOnClick => cardClickable v
  | InterceptOption.OpOnClose => configShown
  | InterceptOption.OpActivateInterceptor _ => configShown
  | InterceptOption.OpOnActivated _ => true
  end.

(** The operations of [os], one after the other. *)
Definition runAll (os : list InterceptOption.Op) (w : InterceptOption.World)
  : InterceptOption.World :=
  foldl (λ w o, InterceptOption.run o w) w os.

(** Every operation of [os] is offered in the state it runs in. *)
Fixpoint allOffered (os : list InterceptOption.Op)
    (w : InterceptOption.World) : bool :=
  match os with
  | [] => true
  | o :: rest => offered o w && allOffered rest (InterceptOption.run o w)
  end.

(** What stays true of a card that starts collapsed: it is expanded only
    for an activable interceptor with a custom UI config. *)
Definition configReady (w : InterceptOption.World) : Prop :=
  InterceptOption.expanded w = true →
  isActivable (InterceptOption.interceptor w) = true ∧
  is_Some (uiConfig (InterceptOption.interceptor w)).

End CardSession.

(** ** The editing operations of a rule row, as one type *)

Module RuleSession.

Inductive Op : Type :=
| AddMatcher (matcher : loc)
| UpdateMatcher (index : Z) (new_matchers : list loc)
| DeleteMatcher (matcher : loc)
| UpdateHandler (new_handler : loc).

Definition run (this : RuleRow.RuleRowProps) (o : Op)
    (h : gmap positive Obj) : option (gmap positive Obj) :=
  match o with
  | AddMatcher m => RuleRow.addMatcher this m h
  | UpdateMatcher index rs => RuleRow.updateMatcher this index rs h
  | DeleteMatcher m => RuleRow.deleteMatcher this m h
  | UpdateHandler hd => RuleRow.updateHandler this hd h
  end.

(** The operations of [os], one after the other; a failing one stops
    the sequence. *)
Fixpoint runAll (this : RuleRow.RuleRowProps) (os : list Op)
    (h : gmap positive Obj) : option (gmap positive Obj) :=
  match os with
  | [] => Some h
  | o :: rest => run this o h ≫= runAll this rest
  end.

End RuleSession.

(** A store in which rules 1 and 8 point to the same matcher array. *)
Definition heapShared : gmap positive Obj :=
  <[8%positive := ORule (mkRule 2 6)]>
  (<[1%positive := ORule (mkRule 2 6)]>
  (<[2%positive := OArray [3; 4]%positive]>
  (<[3%positive := OMatcher (MethodMatcher 0)]>
  (<[4%positive := OMatcher (OtherMatcher "simple-path")]>
  (<[6%positive := OHandler "passthrough"]> ∅))))).

(** A store with two separate rules, 1 and 8. *)
Definition heapTwo : gmap positive Obj :=
  <[8%positive := ORule (mkRule 9 6)]>
  (<[9%positive := OArray [4]%positive]>
  (<[1%positive := ORule (mkRule 2 6)]>
  (<[2%positive := OArray [3; 4]%positive]>
  (<[3%positive := OMatcher (MethodMatcher 0)]>
  (<[4%positive := OMatcher (OtherMatcher "simple-path")]>
  (<[6%positive := OHandler "passthrough"]> ∅)))))).

(** A rule without matchers yet. *)
Definition heapEmpty : gmap positive Obj :=
  <[1%positive := ORule (mkRule 2 6)]>
  (<[2%positive := OArray []]>
  (<[6%positive := OHandler "passthrough"]> ∅)).

(** ** Sample data *)

(** A small store: rule 1 with matcher array 2 = [3; 4; 5] and handler 6;
    matchers 4 and 5 are distinct objects with the same contents. *)
Definition heap0 : Heap :=
  <[1%positive := ORule (mkRule 2 6)]>
  (<[2%positive := OArray [3; 4; 5]%positive]>
  (<[3%positive := OMatcher (MethodMatcher 1)]>
  (<[4%positive := OMatcher (OtherMatcher "simple-path")]>
  (<[5%positive := OMatcher (OtherMatcher "simple-path")]>
  (<[6%positive := OHandler "passthrough"]> ∅))))).

Definition props0 : RuleRow.RuleRowProps := RuleRow.mkProps 1 false false.

(** A [Method] enum read backwards ([Method[k]]), for the examples. *)
Definition Method0 (k : Z) : option string :=
  nth_error ["GET"; "POST"; "PUT"; "DELETE"; "PATCH"; "HEAD"; "OPTIONS"]
    (Z.to_nat k) ≫= λ s, if k <? 0 then None else Some s.

Definition getMethodColor0 (method : string) : string :=
  if String.eqb method "GET" then "#4caf7d"
  else if String.eqb method "POST" then "#ff8c38"
  else "#888".

Definition manual : Interceptor :=
  mkInterceptor "manual-setup" "Anything" ["Manual setup"]
    false true true false (Some (mkUiConfig 4 3 20 None)).

Definition chrome : Interceptor :=
  mkInterceptor "fresh-chrome" "Chrome" ["A fresh Chrome"]
    false true true false None.

Definition docker : Interceptor :=
  mkInterceptor "docker-all" "Docker" ["All containers"]
    false false false false None.

Definition world0 (i : Interceptor) : InterceptOption.World :=
  InterceptOption.mkWorld i 2 false [].

(** ** The removal the specification describes *)

(** [ms] without the occurrences of the object [m], the other matchers
    in their order; written from the specification's words, to compare
    [deleteMatcher] with. *)
Fixpoint withoutIdentical (m : loc) (ms : list loc) : list loc :=
  match ms with
  | [] => []
  | x :: rest =>
      if Pos.eqb x m then withoutIdentical m rest
      else x :: withoutIdentical m rest
  end.

(** Closed, decidable side conditions are settled by evaluation. *)
Ltac by_decide := apply (bool_decide_unpack _); vm_compute; exact I.

(** * Properties *)

Example heap0_matchers : ruleMatchers heap0 1 = Some [3; 4; 5]%positive.
Proof. reflexivity. Qed.


(** ** Reading the store *)

Section Store.

Implicit Types (h : gmap positive Obj) (l a r : positive).

Lemma getRule_Some h l rule :
  getRule h l = Some rule ↔ h !! l = Some (ORule rule).
Proof.
  unfold getRule. destruct (h !! l) as [[]|]; split; congruence.
Qed.

Lemma getArray_Some h l ms :
  getArray h l = Some ms ↔ h !! l = Some (OArray ms).
Proof.
  unfold getArray. destruct (h !! l) as [[]|]; split; congruence.
Qed.

Lemma ruleMatchers_Some h r ms :
  ruleMatchers h r = Some ms ↔
  ∃ rule, getRule h r = Some rule ∧ getArray h (matchers rule) = Some ms.
Proof.
  unfold ruleMatchers. split.
  - destruct (getRule h r) as [rule|] eqn:E; [|done].
    simpl. eauto.
  - intros (rule & -> & Ha). done.
Qed.

(** A rule and an array are never the same object. *)
Lemma rule_array_distinct h r a rule ms :
  getRule h r = Some rule → getArray h a = Some ms → r ≠ a.
Proof.
  intros Hr%getRule_Some Ha%getArray_Some ->. congruence.
Qed.

Lemma getRule_insert_array h a ms r :
  r ≠ a → getRule (<[a := OArray ms]> h) r = getRule h r.
Proof. intros Hne. unfold getRule. by rewrite lookup_insert_ne. Qed.

Lemma getArray_insert_eq h a ms :
  getArray (<[a := OArray ms]> h) a = Some ms.
Proof. unfold getArray. by rewrite lookup_insert_eq. Qed.

Lemma getArray_insert_ne h a o l :
  a ≠ l → getArray (<[a := o]> h) l = getArray h l.
Proof. intros Hne. unfold getArray. by rewrite lookup_insert_ne. Qed.

Lemma getRule_insert_eq h r rule :
  getRule (<[r := ORule rule]> h) r = Some rule.
Proof. unfold getRule. by rewrite lookup_insert_eq. Qed.

Lemma getRule_insert_ne h a o l :
  a ≠ l → getRule (<[a := o]> h) l = getRule h l.
Proof. intros Hne. unfold getRule. by rewrite lookup_insert_ne. Qed.

(** Writing the array a rule points to changes what is read through the
    rule, and nothing else of the rule. *)
Lemma ruleMatchers_write h r rule ms ms' :
  getRule h r = Some rule →
  getArray h (matchers rule) = Some ms →
  getRule (<[matchers rule := OArray ms']> h) r = Some rule ∧
  ruleMatchers (<[matchers rule := OArray ms']> h) r = Some ms'.
Proof.
  intros Hr Ha.
  pose proof (rule_array_distinct _ _ _ _ _ Hr Ha) as Hne.
  assert (getRule (<[matchers rule := OArray ms']> h) r = Some rule) as Hr'.
  { by rewrite getRule_insert_array. }
  split; [done|].
  unfold ruleMatchers. rewrite Hr'. simpl. apply getArray_insert_eq.
Qed.

(** Writing an array leaves every matcher object as it was. *)
Lemma getMatcher_write_array h a ms ms' x :
  getArray h a = Some ms →
  getMatcher (<[a := OArray ms']> h) x = getMatcher h x.
Proof.
  intros Ha%getArray_Some. unfold getMatcher.
  destruct (decide (a = x)) as [->|Hne].
  - by rewrite lookup_insert_eq, Ha.
  - by rewrite lookup_insert_ne.
Qed.

Lemma fresh_not_allocated h l o : h !! l = Some o → fresh (dom h) ≠ l.
Proof.
  intros Hl Heq. apply (is_fresh (dom h)). rewrite Heq.
  apply elem_of_dom. eauto.
Qed.

End Store.

(** ** Array primitives *)

Lemma splice_one_in_range {A : Type} (i : nat) (rs ms : list A) :
  (i < length ms)%nat →
  Js.splice (Z.of_nat i) 1 rs ms = take i ms ++ rs ++ drop (S i) ms.
Proof.
  intros Hi. unfold Js.splice. cbv zeta.
  assert ((Z.of_nat i <? 0) = false) as -> by lia.
  rewrite (Z.min_l (Z.of_nat i)) by lia.
  rewrite (Z.max_l 1 0) by lia.
  rewrite (Z.min_l 1) by lia.
  rewrite Nat2Z.id.
  replace (Z.to_nat (Z.of_nat i + 1)) with (S i) by lia.
  reflexivity.
Qed.

(** On an empty list, which is how [InitialMatcherRow] first fills a rule,
    the new matchers become the whole list. *)
Lemma splice_empty {A : Type} (rs : list A) : Js.splice 0 1 rs [] = rs.
Proof. unfold Js.splice. simpl. by rewrite app_nil_r. Qed.

(** ** RuleRow: the matcher list *)

(** C1. For a rule whose matcher list is [ms], an index [i] inside it and
    replacement matchers [rs], [updateMatcher i rs] succeeds and leaves the
    rule's matcher list equal to [take i ms ++ rs ++ drop (i+1) ms]: the
    matcher at [i] is replaced by [rs], the others keep their order. *)
Theorem updateMatcher_replaces_one
    (this : RuleRow.RuleRowProps) (h : gmap positive Obj)
    (ms rs : list positive) (i : nat) :
  ruleMatchers h (RuleRow.value this) = Some ms →
  (i < length ms)%nat →
  ∃ h', RuleRow.updateMatcher this (Z.of_nat i) rs h = Some h' ∧
        ruleMatchers h' (RuleRow.value this)
        = Some (take i ms ++ rs ++ drop (i + 1) ms).
Proof.
  intros (rule & Hr & Ha)%ruleMatchers_Some Hi.
  unfold RuleRow.updateMatcher. rewrite Hr. simpl. rewrite Ha. simpl.
  eexists. split; [reflexivity|].
  rewrite splice_one_in_range by done.
  replace (i + 1)%nat with (S i) by lia.
  by apply ruleMatchers_write with (ms := ms).
Qed.

Lemma updateMatcher_replaces_one_witness :
  ruleMatchers heap0 (RuleRow.value props0) = Some [3; 4; 5]%positive ∧
  ∃ h', RuleRow.updateMatcher props0 (Z.of_nat 1) [8; 9]%positive heap0
        = Some h' ∧
        ruleMatchers h' (RuleRow.value props0)
        = Some (take 1 [3; 4; 5]%positive ++ [8; 9]%positive
                  ++ drop (1 + 1) [3; 4; 5]%positive).
Proof.
  split; [reflexivity|].
  apply (updateMatcher_replaces_one props0 heap0 [3; 4; 5]%positive
           [8; 9]%positive 1); [reflexivity | simpl; lia].
Defined.

(** C3. For a rule whose matcher list is [ms] and a matcher [m],
    [addMatcher m] succeeds and leaves the rule's matcher list equal to
    [ms ++ [m]]: the new matcher is last, every matcher that was there
    keeps its position, and no matcher object is changed. *)
Theorem addMatcher_appends
    (this : RuleRow.RuleRowProps) (h : gmap positive Obj)
    (ms : list positive) (m : positive) :
  ruleMatchers h (RuleRow.value this) = Some ms →
  ∃ h', RuleRow.addMatcher this m h = Some h' ∧
        ruleMatchers h' (RuleRow.value this) = Some (ms ++ [m]) ∧
        (∀ (j : nat) x, ms !! j = Some x → (ms ++ [m]) !! j = Some x) ∧
        (ms ++ [m]) !! length ms = Some m ∧
        ∀ x, getMatcher h' x = getMatcher h x.
Proof.
  intros (rule & Hr & Ha)%ruleMatchers_Some.
  unfold RuleRow.addMatcher. rewrite Hr. simpl. rewrite Ha. simpl.
  eexists. split; [reflexivity|]. split; [|split; [|split]].
  - by apply ruleMatchers_write with (ms := ms).
  - intros j x Hj. by apply lookup_app_l_Some.
  - rewrite lookup_app_r by lia. by rewrite Nat.sub_diag.
  - intros x. by apply getMatcher_write_array with (ms := ms).
Qed.

Lemma addMatcher_appends_witness :
  ruleMatchers heap0 (RuleRow.value props0) = Some [3; 4; 5]%positive ∧
  ∃ h', RuleRow.addMatcher props0 3 heap0 = Some h' ∧
        ruleMatchers h' (RuleRow.value props0)
        = Some ([3; 4; 5]%positive ++ [3%positive]) ∧
        (∀ (j : nat) x, ([3; 4; 5]%positive) !! j = Some x →
                        ([3; 4; 5]%positive ++ [3%positive]) !! j = Some x) ∧
        ([3; 4; 5]%positive ++ [3%positive]) !! length [3; 4; 5]%positive
        = Some 3%positive ∧
        ∀ x, getMatcher h' x = getMatcher heap0 x.
Proof.
  split; [reflexivity|].
  apply (addMatcher_appends props0 heap0 [3; 4; 5]%positive 3).
  reflexivity.
Defined.

Lemma filter_withoutIdentical (m : positive) (ms : list positive) :
  filter (λ x, x ≠ m) ms = withoutIdentical m ms.
Proof.
  induction ms as [|x rest IH]; [done|].
  simpl. destruct (Pos.eqb_spec x m) as [->|Hne].
  - rewrite filter_cons_False; [done | by intros ?].
  - rewrite filter_cons_True by done. by rewrite IH.
Qed.

Lemma withoutIdentical_sublist (m : positive) (ms : list positive) :
  sublist (withoutIdentical m ms) ms.
Proof.
  induction ms as [|x rest IH]; simpl; [constructor|].
  destruct (Pos.eqb x m); by constructor.
Qed.

Lemma withoutIdentical_elem (m x : positive) (ms : list positive) :
  x ∈ withoutIdentical m ms ↔ x ∈ ms ∧ x ≠ m.
Proof.
  rewrite <- filter_withoutIdentical, list_elem_of_filter. tauto.
Qed.

(** What [deleteMatcher] builds: the rule at the same place, pointing to
    a newly allocated array. *)
Lemma deleteMatcher_result
    (this : RuleRow.RuleRowProps) (h : gmap positive Obj)
    (rule : HtkMockRule) (ms : list positive) (m : positive) :
  getRule h (RuleRow.value this) = Some rule →
  getArray h (matchers rule) = Some ms →
  let a := fresh (dom h) in
  ∃ h', RuleRow.deleteMatcher this m h = Some h' ∧
        h !! a = None ∧
        getRule h' (RuleRow.value this) = Some (mkRule a (handler rule)) ∧
        getArray h' a = Some (withoutIdentical m ms) ∧
        ∀ l, l ≠ a → l ≠ RuleRow.value this → h' !! l = h !! l.
Proof.
  intros Hr Ha a.
  unfold RuleRow.deleteMatcher. rewrite Hr. simpl. rewrite Ha. simpl.
  fold a. eexists. split; [reflexivity|].
  assert (h !! a = None) as Hfresh.
  { apply not_elem_of_dom, is_fresh. }
  assert (RuleRow.value this ≠ a) as Hne.
  { intros Heq. apply getRule_Some in Hr. congruence. }
  split; [done|]. split; [apply getRule_insert_eq|]. split.
  - rewrite getArray_insert_ne by done.
    rewrite getArray_insert_eq. by rewrite filter_withoutIdentical.
  - intros l Hla Hlr. by rewrite !lookup_insert_ne.
Qed.

(** C2. For a rule whose matcher list is [ms] and a matcher [m],
    [deleteMatcher m] succeeds and leaves the rule's matcher list equal to
    [ms] without every occurrence of the object [m], the others in their
    original order; a matcher that is another object stays, also when its
    contents equal those of [m]. *)
Theorem deleteMatcher_removes_identical
    (this : RuleRow.RuleRowProps) (h : gmap positive Obj)
    (ms : list positive) (m : positive) :
  ruleMatchers h (RuleRow.value this) = Some ms →
  ∃ h' ms',
    RuleRow.deleteMatcher this m h = Some h' ∧
    ruleMatchers h' (RuleRow.value this) = Some ms' ∧
    ms' = withoutIdentical m ms ∧
    (m ∉ ms') ∧
    sublist ms' ms ∧
    ∀ m', m' ∈ ms → m' ≠ m → getMatcher h m' = getMatcher h m → m' ∈ ms'.
Proof.
  intros (rule & Hr & Ha)%ruleMatchers_Some.
  destruct (deleteMatcher_result this h rule ms m Hr Ha)
    as (h' & Hrun & _ & Hr' & Ha' & _).
  exists h', (withoutIdentical m ms). split; [done|]. split.
  { unfold ruleMatchers. rewrite Hr'. exact Ha'. }
  split; [done|]. split.
  { rewrite withoutIdentical_elem. tauto. }
  split; [apply withoutIdentical_sublist|].
  intros m' Hin Hne _. by apply withoutIdentical_elem.
Qed.

Lemma deleteMatcher_removes_identical_witness :
  ruleMatchers heap0 (RuleRow.value props0) = Some [3; 4; 5]%positive ∧
  getMatcher heap0 5 = getMatcher heap0 4 ∧
  ∃ h' ms',
    RuleRow.deleteMatcher props0 4 heap0 = Some h' ∧
    ruleMatchers h' (RuleRow.value props0) = Some ms' ∧
    ms' = withoutIdentical 4 [3; 4; 5]%positive ∧
    (4%positive ∉ ms') ∧
    sublist ms' [3; 4; 5]%positive ∧
    ∀ m', m' ∈ [3; 4; 5]%positive → m' ≠ 4%positive →
          getMatcher heap0 m' = getMatcher heap0 4 → m' ∈ ms'.
Proof.
  split; [reflexivity|]. split; [reflexivity|].
  apply (deleteMatcher_removes_identical props0 heap0 [3; 4; 5]%positive 4).
  reflexivity.
Defined.

Example deleteMatcher_keeps_equal_object :
  (RuleRow.deleteMatcher props0 4 heap0 ≫= λ h, ruleMatchers h 1)
  = Some [3; 5]%positive.
Proof. vm_compute. reflexivity. Qed.

(** ** RuleRow: what is written where *)

(** [addMatcher] and [updateMatcher] write the array the rule points to,
    and leave the rule object as it was. *)
Lemma addMatcher_result
    (this : RuleRow.RuleRowProps) (h : gmap positive Obj)
    (rule : HtkMockRule) (ms : list positive) (m : positive) :
  getRule h (RuleRow.value this) = Some rule →
  getArray h (matchers rule) = Some ms →
  ∃ h', RuleRow.addMatcher this m h = Some h' ∧
        getRule h' (RuleRow.value this) = Some rule ∧
        getArray h' (matchers rule) = Some (ms ++ [m]).
Proof.
  intros Hr Ha.
  unfold RuleRow.addMatcher. rewrite Hr. simpl. rewrite Ha. simpl.
  eexists. split; [reflexivity|]. split.
  - by apply ruleMatchers_write with (ms := ms).
  - apply getArray_insert_eq.
Qed.

Lemma updateMatcher_result
    (this : RuleRow.RuleRowProps) (h : gmap positive Obj)
    (rule : HtkMockRule) (ms rs : list positive) (index : Z) :
  getRule h (RuleRow.value this) = Some rule →
  getArray h (matchers rule) = Some ms →
  ∃ h', RuleRow.updateMatcher this index rs h = Some h' ∧
        getRule h' (RuleRow.value this) = Some rule ∧
        getArray h' (matchers rule) = Some (Js.splice index 1 rs ms).
Proof.
  intros Hr Ha.
  unfold RuleRow.updateMatcher. rewrite Hr. simpl. rewrite Ha. simpl.
  eexists. split; [reflexivity|]. split.
  - by apply ruleMatchers_write with (ms := ms).
  - apply getArray_insert_eq.
Qed.

Lemma updateHandler_result
    (this : RuleRow.RuleRowProps) (h : gmap positive Obj)
    (rule : HtkMockRule) (ms : list positive) (hd : positive) :
  getRule h (RuleRow.value this) = Some rule →
  getArray h (matchers rule) = Some ms →
  ∃ h', RuleRow.updateHandler this hd h = Some h' ∧
        getRule h' (RuleRow.value this) = Some (mkRule (matchers rule) hd) ∧
        getArray h' (matchers rule) = Some ms.
Proof.
  intros Hr Ha.
  pose proof (rule_array_distinct _ _ _ _ _ Hr Ha) as Hne.
  unfold RuleRow.updateHandler. rewrite Hr. simpl.
  eexists. split; [reflexivity|]. split.
  - apply getRule_insert_eq.
  - by rewrite getArray_insert_ne.
Qed.

(** C5, as the code has it. All three matcher operations leave the rule
    the same object. [addMatcher] and [updateMatcher] change the contents
    of the array object the rule already points to, so the rule's
    [matchers] reference is unchanged. [deleteMatcher] instead stores a
    newly allocated array in the rule's [matchers] field, and leaves the
    array the rule pointed to before with its old contents. *)
Theorem matcher_operations_write_places
    (this : RuleRow.RuleRowProps) (h : gmap positive Obj)
    (rule : HtkMockRule) (ms : list positive) :
  getRule h (RuleRow.value this) = Some rule →
  getArray h (matchers rule) = Some ms →
  let r := RuleRow.value this in
  (∀ m, ∃ h', RuleRow.addMatcher this m h = Some h' ∧
              getRule h' r = Some rule ∧
              ruleMatchersRef h' r = Some (matchers rule) ∧
              getArray h' (matchers rule) = Some (ms ++ [m])) ∧
  (∀ index rs,
     ∃ h', RuleRow.updateMatcher this index rs h = Some h' ∧
           getRule h' r = Some rule ∧
           ruleMatchersRef h' r = Some (matchers rule) ∧
           getArray h' (matchers rule) = Some (Js.splice index 1 rs ms)) ∧
  (∀ m, ∃ h' a, RuleRow.deleteMatcher this m h = Some h' ∧
                ruleMatchersRef h' r = Some a ∧
                h !! a = None ∧
                a ≠ matchers rule ∧
                getArray h' a = Some (withoutIdentical m ms) ∧
                getArray h' (matchers rule) = Some ms).
Proof.
  intros Hr Ha r. split; [|split].
  - intros m.
    destruct (addMatcher_result this h rule ms m Hr Ha)
      as (h' & Hrun & Hr' & Ha').
    exists h'. unfold ruleMatchersRef. subst r. by rewrite Hr'.
  - intros index rs.
    destruct (updateMatcher_result this h rule ms rs index Hr Ha)
      as (h' & Hrun & Hr' & Ha').
    exists h'. unfold ruleMatchersRef. subst r. by rewrite Hr'.
  - intros m.
    destruct (deleteMatcher_result this h rule ms m Hr Ha)
      as (h' & Hrun & Hfresh & Hr' & Ha' & Hframe).
    exists h', (fresh (dom h)).
    assert (fresh (dom h) ≠ matchers rule) as Hne.
    { apply getArray_Some in Ha. by eapply fresh_not_allocated. }
    split; [done|]. split.
    { unfold ruleMatchersRef. subst r. by rewrite Hr'. }
    split; [done|]. split; [done|]. split; [done|].
    unfold getArray. rewrite Hframe; [exact Ha | done |].
    intros Heq. by apply (rule_array_distinct _ _ _ _ _ Hr Ha).
Qed.

Lemma matcher_operations_write_places_witness :
  getRule heap0 (RuleRow.value props0) = Some (mkRule 2 6) ∧
  getArray heap0 (matchers (mkRule 2 6)) = Some [3; 4; 5]%positive ∧
  ∃ h' a, RuleRow.deleteMatcher props0 4 heap0 = Some h' ∧
          ruleMatchersRef h' 1 = Some a ∧
          heap0 !! a = None ∧
          a ≠ 2%positive ∧
          getArray h' a = Some (withoutIdentical 4 [3; 4; 5]%positive) ∧
          getArray h' 2 = Some [3; 4; 5]%positive.
Proof.
  split; [reflexivity|]. split; [reflexivity|].
  apply (matcher_operations_write_places props0 heap0 (mkRule 2 6)
           [3; 4; 5]%positive eq_refl eq_refl).
Defined.

(** C5, as stated, fails for [deleteMatcher]: on the sample store the
    rule's [matchers] field holds array 2 before the call and the new
    array 7 after it, while array 2 still holds all three matchers. *)
Lemma deleteMatcher_replaces_array :
  ruleMatchersRef heap0 1 = Some 2%positive ∧
  (RuleRow.deleteMatcher props0 4 heap0 ≫= λ h', ruleMatchersRef h' 1)
  = Some 7%positive ∧
  (RuleRow.deleteMatcher props0 4 heap0 ≫= λ h', getArray h' 2)
  = Some [3; 4; 5]%positive ∧
  (RuleRow.deleteMatcher props0 4 heap0 ≫= λ h', getArray h' 7)
  = Some [3; 5]%positive.
Proof. vm_compute. repeat split. Qed.

(** C7. [updateHandler h] sets the rule's handler to [h] and leaves the
    matcher list as it was, the same array with the same contents; none of
    the matcher operations changes the rule's handler. Before and after
    each operation the rule has one handler. *)
Theorem handler_and_matchers_independent
    (this : RuleRow.RuleRowProps) (h : gmap positive Obj)
    (rule : HtkMockRule) (ms : list positive) :
  getRule h (RuleRow.value this) = Some rule →
  getArray h (matchers rule) = Some ms →
  let r := RuleRow.value this in
  ruleHandler h r = Some (handler rule) ∧
  (∀ hd, ∃ h', RuleRow.updateHandler this hd h = Some h' ∧
               ruleHandler h' r = Some hd ∧
               ruleMatchersRef h' r = Some (matchers rule) ∧
               ruleMatchers h' r = Some ms) ∧
  (∀ m, ∃ h', RuleRow.addMatcher this m h = Some h' ∧
              ruleHandler h' r = Some (handler rule)) ∧
  (∀ index rs, ∃ h', RuleRow.updateMatcher this index rs h = Some h' ∧
                     ruleHandler h' r = Some (handler rule)) ∧
  (∀ m, ∃ h', RuleRow.deleteMatcher this m h = Some h' ∧
              ruleHandler h' r = Some (handler rule)).
Proof.
  intros Hr Ha r. subst r. unfold ruleHandler, ruleMatchersRef, ruleMatchers.
  split; [by rewrite Hr|]. split; [|split; [|split]].
  - intros hd.
    destruct (updateHandler_result this h rule ms hd Hr Ha)
      as (h' & Hrun & Hr' & Ha').
    exists h'. by rewrite Hr'.
  - intros m.
    destruct (addMatcher_result this h rule ms m Hr Ha)
      as (h' & Hrun & Hr' & _).
    exists h'. by rewrite Hr'.
  - intros index rs.
    destruct (updateMatcher_result this h rule ms rs index Hr Ha)
      as (h' & Hrun & Hr' & _).
    exists h'. by rewrite Hr'.
  - intros m.
    destruct (deleteMatcher_result this h rule ms m Hr Ha)
      as (h' & Hrun & _ & Hr' & _).
    exists h'. by rewrite Hr'.
Qed.

Lemma handler_and_matchers_independent_witness :
  getRule heap0 (RuleRow.value props0) = Some (mkRule 2 6) ∧
  getArray heap0 (matchers (mkRule 2 6)) = Some [3; 4; 5]%positive ∧
  ∀ hd, ∃ h', RuleRow.updateHandler props0 hd heap0 = Some h' ∧
              ruleHandler h' 1 = Some hd ∧
              ruleMatchersRef h' 1 = Some 2%positive ∧
              ruleMatchers h' 1 = Some [3; 4; 5]%positive.
Proof.
  split; [reflexivity|]. split; [reflexivity|].
  apply (handler_and_matchers_independent props0 heap0 (mkRule 2 6)
           [3; 4; 5]%positive eq_refl eq_refl).
Defined.

(** ** RuleRow: the method shown *)

Section MethodBadge.

Variable Method : Z → option string.
Variable getMethodColor : string → string.

Lemma initialMatcher_cons (m : positive) (rest : list positive) :
  RuleRow.initialMatcher (m :: rest) = Some m.
Proof. unfold RuleRow.initialMatcher. simpl length. by rewrite Nat2Z.inj_succ,
  (proj2 (Z.eqb_neq _ _)) by lia. Qed.

Lemma render_borderColor
    (this : RuleRow.RuleRowProps) (h : gmap positive Obj)
    (ms : list positive) :
  ruleMatchers h (RuleRow.value this) = Some ms →
  ∃ v, RuleRow.render Method getMethodColor this h = Some v ∧
       borderColor v
       = RuleRow.methodBorderColor getMethodColor
           (RuleRow.displayedMethod Method h ms).
Proof.
  intros (rule & Hr & Ha)%ruleMatchers_Some.
  unfold RuleRow.render. rewrite Hr. simpl. rewrite Ha. simpl. eauto.
Qed.

(** C4. The method shown by a rule row depends on the first matcher of
    the rule only. With no matcher no method is shown and the border is
    transparent; when the first matcher is a [MethodMatcher] the method
    shown is the name of its method, and the border has that method's
    colour; when it is any other matcher the method shown is 'unknown'.
    The matchers after the first do not change the result. *)
Theorem method_badge_from_first_matcher
    (this : RuleRow.RuleRowProps) (h : gmap positive Obj)
    (ms : list positive) :
  ruleMatchers h (RuleRow.value this) = Some ms →
  ∃ v, RuleRow.render Method getMethodColor this h = Some v ∧
    (ms = [] →
       RuleRow.displayedMethod Method h ms = None ∧
       borderColor v = "transparent") ∧
    (∀ m rest k methodName,
       ms = m :: rest → getMatcher h m = Some (MethodMatcher k) →
       Method k = Some methodName →
       RuleRow.displayedMethod Method h ms = Some methodName ∧
       (methodName ≠ "" → borderColor v = getMethodColor methodName)) ∧
    (∀ m rest type,
       ms = m :: rest → getMatcher h m = Some (OtherMatcher type) →
       RuleRow.displayedMethod Method h ms = Some "unknown" ∧
       borderColor v = getMethodColor "unknown") ∧
    (∀ m rest rest',
       ms = m :: rest →
       RuleRow.displayedMethod Method h (m :: rest')
       = RuleRow.displayedMethod Method h ms).
Proof.
  intros Hms.
  destruct (render_borderColor this h ms Hms) as (v & Hv & Hcolor).
  exists v. split; [done|]. rewrite Hcolor. clear Hv Hcolor.
  split; [|split; [|split]].
  - by intros ->.
  - intros m rest k methodName -> Hm Hk.
    unfold RuleRow.displayedMethod.
    rewrite initialMatcher_cons, Hm, Hk. split; [done|].
    intros Hne. unfold RuleRow.methodBorderColor, Js.truthy_string.
    by rewrite (proj2 (String.eqb_neq _ _)).
  - intros m rest type -> Hm.
    unfold RuleRow.displayedMethod.
    by rewrite initialMatcher_cons, Hm.
  - intros m rest rest' ->.
    unfold RuleRow.displayedMethod.
    by rewrite !initialMatcher_cons.
Qed.

End MethodBadge.

Lemma method_badge_from_first_matcher_witness :
  ruleMatchers heap0 (RuleRow.value props0) = Some [3; 4; 5]%positive ∧
  ∃ v, RuleRow.render Method0 getMethodColor0 props0 heap0 = Some v ∧
       RuleRow.displayedMethod Method0 heap0 [3; 4; 5]%positive
       = Some "POST" ∧
       borderColor v = getMethodColor0 "POST".
Proof.
  split; [reflexivity|].
  destruct (method_badge_from_first_matcher Method0 getMethodColor0
              props0 heap0 [3; 4; 5]%positive eq_refl)
    as (v & Hv & _ & Hmethod & _).
  exists v. split; [exact Hv|].
  destruct (Hmethod 3%positive [4; 5]%positive 1 "POST"
              eq_refl eq_refl eq_refl) as [Hshown Hcolor].
  split; [exact Hshown|]. by apply Hcolor.
Defined.

Example method_shown_empty :
  RuleRow.displayedMethod Method0 heap0 [] = None.
Proof. reflexivity. Qed.

Example method_shown_other :
  RuleRow.displayedMethod Method0 heap0 [4; 3]%positive = Some "unknown".
Proof. reflexivity. Qed.

(** ** InterceptOption *)

Module InterceptOptionFacts.

Import InterceptOption.

Lemma storeCalls_app (es es' : list Effect) :
  storeCalls (es ++ es') = storeCalls es ++ storeCalls es'.
Proof. apply List.filter_app. Qed.

Lemma effects_emit (e : Effect) (w : World) :
  effects (emit e w) = effects w ++ [e].
Proof. reflexivity. Qed.

(** Each operation only appends to the calls made so far. *)
Lemma run_effects (o : Op) (w : World) :
  ∃ new, effects (run o w) = effects w ++ new ∧
         ∀ e, e ∈ storeCalls new →
              ∃ options,
                e = StoreActivateInterceptor (id (interceptor w)) options.
Proof.
  destruct o as [| | |options|successful]; simpl.
  - exists []. rewrite app_nil_r. split; [done|]. intros e []%elem_of_nil.
  - unfold onClick.
    destruct (isActivable (interceptor w)); simpl;
      [destruct (uiConfig (interceptor w)); simpl|].
    + eexists [_; _]. rewrite <- app_assoc. split; [done|].
      simpl. intros e []%elem_of_nil.
    + eexists [_; _]. rewrite <- app_assoc. split; [done|].
      simpl. intros e ->%list_elem_of_singleton. eauto.
    + eexists [_]. split; [done|]. simpl. intros e []%elem_of_nil.
  - exists []. rewrite app_nil_r. split; [done|]. intros e []%elem_of_nil.
  - eexists [_]. split; [done|].
    simpl. intros e ->%list_elem_of_singleton. eauto.
  - destruct successful; simpl.
    + eexists [_; _]. rewrite <- app_assoc. split; [done|].
      simpl. intros e []%elem_of_nil.
    + exists []. rewrite app_nil_r. split; [done|].
      intros e []%elem_of_nil.
Qed.

End InterceptOptionFacts.

(** C6. A click on a collapsed card: when the interceptor is not
    activable the card stays collapsed and the store is not asked for
    anything; when it is activable and has a custom UI config the card
    becomes expanded and the store is not asked for anything; when it is
    activable and has no custom UI config the store is asked, once, to
    activate the interceptor with this interceptor's id. *)
Theorem onClick_collapsed_card (w : InterceptOption.World) :
  InterceptOption.expanded w = false →
  let i := InterceptOption.interceptor w in
  let w' := InterceptOption.onClick w in
  let calls := λ w, InterceptOption.storeCalls (InterceptOption.effects w) in
  (isActivable i = false →
     InterceptOption.expanded w' = false ∧ calls w' = calls w) ∧
  (∀ c, isActivable i = true → uiConfig i = Some c →
     InterceptOption.expanded w' = true ∧ calls w' = calls w) ∧
  (isActivable i = true → uiConfig i = None →
     InterceptOption.expanded w' = false ∧
     calls w' = calls w ++ [StoreActivateInterceptor (id i) None]).
Proof.
  intros Hcollapsed i w' calls. subst i w' calls.
  unfold InterceptOption.onClick.
  split; [|split].
  - intros ->. simpl. rewrite InterceptOptionFacts.storeCalls_app. simpl.
    by rewrite app_nil_r.
  - intros c -> ->. simpl.
    rewrite !InterceptOptionFacts.storeCalls_app. simpl.
    by rewrite !app_nil_r.
  - intros -> ->. simpl.
    rewrite <- app_assoc, InterceptOptionFacts.storeCalls_app. by simpl.
Qed.

Lemma onClick_collapsed_card_witness :
  InterceptOption.expanded (world0 chrome) = false ∧
  InterceptOption.expanded (InterceptOption.onClick (world0 chrome)) = false ∧
  InterceptOption.storeCalls
    (InterceptOption.effects (InterceptOption.onClick (world0 chrome)))
  = [] ++ [StoreActivateInterceptor "fresh-chrome" None].
Proof.
  split; [reflexivity|].
  apply (onClick_collapsed_card (world0 chrome) eq_refl); reflexivity.
Defined.

Example onClick_manual_expands :
  InterceptOption.onClick (world0 manual)
  = InterceptOption.mkWorld manual 2 true
      [TrackEvent "Interceptors" "Activated" "manual-setup"; ScrollIntoView].
Proof. reflexivity. Qed.

Example onClick_docker_ignored :
  InterceptOption.onClick (world0 docker)
  = InterceptOption.mkWorld docker 2 false
      [TrackEvent "Interceptors" "Activated" "docker-all"].
Proof. reflexivity. Qed.

(** C8. No operation of the intercept option card (render, onClick,
    onClose, activateInterceptor, and the continuation run when an
    activation resolves) changes the interceptor or any of its fields;
    the calls an operation makes to the interceptor store are calls of
    [activateInterceptor] for this interceptor's id. *)
Theorem interceptor_only_read (o : InterceptOption.Op)
    (w : InterceptOption.World) :
  InterceptOption.interceptor (InterceptOption.run o w)
  = InterceptOption.interceptor w ∧
  ∃ new,
    InterceptOption.effects (InterceptOption.run o w)
    = InterceptOption.effects w ++ new ∧
    ∀ e, e ∈ InterceptOption.storeCalls new →
         ∃ options,
           e = StoreActivateInterceptor
                 (id (InterceptOption.interceptor w)) options.
Proof.
  split; [|apply InterceptOptionFacts.run_effects].
  destruct o as [| | |options|successful]; simpl; try reflexivity.
  - unfold InterceptOption.onClick.
    destruct (isActivable _); simpl; [|done].
    by destruct (uiConfig _).
  - by destruct successful.
Qed.

Lemma interceptor_only_read_witness :
  InterceptOption.interceptor
    (InterceptOption.run InterceptOption.OpOnClick (world0 chrome))
  = chrome ∧
  ∃ new,
    InterceptOption.effects
      (InterceptOption.run InterceptOption.OpOnClick (world0 chrome))
    = [] ++ new ∧
    ∀ e, e ∈ InterceptOption.storeCalls new →
         ∃ options, e = StoreActivateInterceptor "fresh-chrome" options.
Proof.
  apply (interceptor_only_read InterceptOption.OpOnClick (world0 chrome)).
Defined.

(** C9. The status pill is chosen by precedence: a custom pill of the UI
    config comes first; without one, 'Activated' is shown exactly when the
    interceptor is active; for an interceptor that is neither active nor
    activable, 'Not available' when it is supported and 'Coming soon' when
    it is not; and there is no pill exactly when the interceptor is
    activable, not active and has no custom pill. *)
Theorem getStatusPill_precedence (i : Interceptor) :
  let custom := uiConfig i ≫= customPill in
  let pill := InterceptOption.getStatusPill i in
  (∀ c, custom = Some c → pill = Some (CustomPill c)) ∧
  (custom = None →
     (pill = Some (StatusPill (Some "#4caf7d") "Activated")
      ↔ isActive i = true)) ∧
  (custom = None → isActive i = false → isActivable i = false →
     pill = Some (if isSupported i
                  then StatusPill None "Not available"
                  else StatusPill (Some "#e1421f") "Coming soon")) ∧
  (pill = None
   ↔ isActivable i = true ∧ isActive i = false ∧ custom = None).
Proof.
  intros custom pill. subst custom pill. unfold InterceptOption.getStatusPill.
  destruct (uiConfig i ≫= customPill) as [c|];
    destruct (isActive i), (isActivable i), (isSupported i); simpl;
    repeat split; intros; try congruence; try tauto;
    repeat match goal with H : _ ∧ _ |- _ => destruct H end;
    congruence.
Qed.

Lemma getStatusPill_precedence_witness :
  uiConfig docker ≫= customPill = None ∧
  isActive docker = false ∧
  isActivable docker = false ∧
  InterceptOption.getStatusPill docker
  = Some (if isSupported docker
          then StatusPill None "Not available"
          else StatusPill (Some "#e1421f") "Coming soon").
Proof.
  split; [reflexivity|]. split; [reflexivity|]. split; [reflexivity|].
  apply (getStatusPill_precedence docker); reflexivity.
Defined.

Example getStatusPill_docker :
  InterceptOption.getStatusPill docker
  = Some (StatusPill (Some "#e1421f") "Coming soon").
Proof. reflexivity. Qed.

Example getStatusPill_chrome : InterceptOption.getStatusPill chrome = None.
Proof. reflexivity. Qed.

(** ** ExchangeBreakpointResponseCard *)

(** C10. The partial response [onStatusChange] emits carries the entered
    status code when that is a number other than zero, and NaN when the
    entered status code is the empty string or a zero; the status message
    is handed on as it was given; and the object has no field besides
    [statusCode] and [statusMessage]. *)
Theorem onStatusChange_partial_response
    (statusCode : StatusCode) (statusMessage : option string) :
  let emitted :=
    ExchangeBreakpointResponseCard.onStatusChange statusCode statusMessage in
  (∀ x, statusCode = StatusNumber x → (∀ s, x ≠ S754_zero s) →
        emitted !! "statusCode" = Some (VNumber x)) ∧
  (statusCode = EmptyStatus ∨ (∃ s, statusCode = StatusNumber (S754_zero s)) →
        emitted !! "statusCode" = Some (VNumber S754_nan)) ∧
  emitted !! "statusMessage"
  = Some (match statusMessage with
          | Some msg => VString msg
          | None => VUndefined
          end) ∧
  dom emitted = {["statusCode"; "statusMessage"]}.
Proof.
  intros emitted. subst emitted.
  unfold ExchangeBreakpointResponseCard.onStatusChange.
  split; [|split; [|split]].
  - intros x -> Hnz. rewrite lookup_insert_eq.
    destruct x as [s| | |]; simpl; try done. by destruct (Hnz s).
  - intros [->|[s ->]]; by rewrite lookup_insert_eq.
  - rewrite lookup_insert_ne by done. by rewrite lookup_insert_eq.
  - rewrite !dom_insert_L, dom_empty_L. set_solver.
Qed.

Lemma onStatusChange_partial_response_witness :
  (∀ s, S754_finite false 404 0 ≠ S754_zero s) ∧
  ExchangeBreakpointResponseCard.onStatusChange
    (StatusNumber (S754_finite false 404 0)) (Some "Not Found")
  !! "statusCode"
  = Some (VNumber (S754_finite false 404 0)).
Proof.
  split; [done|].
  apply (onStatusChange_partial_response
           (StatusNumber (S754_finite false 404 0)) (Some "Not Found"));
    done.
Defined.

Example onStatusChange_404 :
  ExchangeBreakpointResponseCard.onStatusChange
    (StatusNumber (S754_finite false 404 0)) (Some "Not Found")
  !! "statusCode"
  = Some (VNumber (S754_finite false 404 0)).
Proof. reflexivity. Qed.

Example onStatusChange_empty :
  ExchangeBreakpointResponseCard.onStatusChange EmptyStatus None
  = <["statusCode" := VNumber S754_nan]>
      (<["statusMessage" := VUndefined]> ∅).
Proof. reflexivity. Qed.

(** * Further properties *)

(** ** [splice] with one deletion, at any index *)

Section SpliceOne.

Context {A : Type}.
Implicit Types (rs ms : list A).

Lemma splice_one_past_end (index : Z) rs ms :
  Z.of_nat (length ms) ≤ index → Js.splice index 1 rs ms = ms ++ rs.
Proof.
  intros Hi. unfold Js.splice. cbv zeta.
  assert ((index <? 0) = false) as -> by lia.
  rewrite (Z.min_r index) by lia.
  rewrite (Z.max_l 1 0), Z.sub_diag, (Z.min_r 1 0), Z.add_0_r by lia.
  rewrite Nat2Z.id, firstn_all, drop_all. by rewrite app_nil_r.
Qed.

Lemma splice_one_from_end (j : nat) rs ms :
  (1 ≤ j ≤ length ms)%nat →
  Js.splice (- Z.of_nat j) 1 rs ms
  = take (length ms - j) ms ++ rs ++ drop (length ms - j + 1) ms.
Proof.
  intros Hj. unfold Js.splice. cbv zeta.
  assert ((- Z.of_nat j <? 0) = true) as -> by lia.
  rewrite (Z.max_l _ 0) by lia.
  rewrite (Z.max_l 1 0) by lia.
  rewrite (Z.min_l 1) by lia.
  replace (Z.to_nat (Z.of_nat (length ms) + - Z.of_nat j))
    with (length ms - j)%nat by lia.
  replace (Z.to_nat (Z.of_nat (length ms) + - Z.of_nat j + 1))
    with (length ms - j + 1)%nat by lia.
  reflexivity.
Qed.

Lemma splice_one_nil (index : Z) rs : Js.splice index 1 rs [] = rs.
Proof.
  unfold Js.splice. cbv zeta. simpl length.
  by rewrite take_nil, drop_nil, app_nil_r.
Qed.

(** Whatever the index, the result is a prefix of the old list, the new
    items, and a suffix of the old list, which together leave out at most
    one old element. *)
Lemma splice_one_shape (index : Z) rs ms :
  ∃ pre post,
    Js.splice index 1 rs ms = pre ++ rs ++ post ∧
    pre `prefix_of` ms ∧ post `suffix_of` ms ∧
    (length pre + length post ≤ length ms)%nat ∧
    (length ms ≤ length pre + length post + 1)%nat.
Proof.
  unfold Js.splice. cbv zeta.
  set (len := Z.of_nat (length ms)).
  set (start := if index <? 0 then Z.max (len + index) 0
                else Z.min index len).
  set (count := Z.min (Z.max 1 0) (len - start)).
  assert (0 ≤ start ≤ len) as Hstart.
  { subst start len. destruct (index <? 0) eqn:E; lia. }
  assert (0 ≤ count ≤ 1 ∧ start + count ≤ len) as Hcount.
  { subst count. lia. }
  exists (take (Z.to_nat start) ms), (drop (Z.to_nat (start + count)) ms).
  split; [done|]. split.
  { exists (drop (Z.to_nat start) ms). by rewrite take_drop. }
  split.
  { exists (take (Z.to_nat (start + count)) ms). by rewrite take_drop. }
  rewrite length_take, length_drop. subst len. lia.
Qed.

End SpliceOne.

(** ** RuleRow: [updateMatcher] outside the list *)

(** X1. Whatever index it is given, [updateMatcher] succeeds on a rule
    and removes at most one matcher: the new list is a prefix of the old
    one, the replacements in their order, and a suffix of the old one,
    which together miss at most one old matcher. *)
Theorem updateMatcher_any_index
    (this : RuleRow.RuleRowProps) (h : gmap positive Obj)
    (ms rs : list positive) (index : Z) :
  ruleMatchers h (RuleRow.value this) = Some ms →
  ∃ h' pre post,
    RuleRow.updateMatcher this index rs h = Some h' ∧
    ruleMatchers h' (RuleRow.value this) = Some (pre ++ rs ++ post) ∧
    pre `prefix_of` ms ∧ post `suffix_of` ms ∧
    (length pre + length post ≤ length ms)%nat ∧
    (length ms ≤ length pre + length post + 1)%nat.
Proof.
  intros (rule & Hr & Ha)%ruleMatchers_Some.
  destruct (updateMatcher_result this h rule ms rs index Hr Ha)
    as (h' & Hrun & Hr' & Ha').
  destruct (splice_one_shape index rs ms) as (pre & post & Heq & Hrest).
  exists h', pre, post. split; [done|]. split; [|done].
  unfold ruleMatchers. rewrite Hr'. simpl. by rewrite Ha', Heq.
Qed.

Lemma updateMatcher_any_index_witness :
  ruleMatchers heap0 (RuleRow.value props0) = Some [3; 4; 5]%positive ∧
  ∃ h' pre post,
    RuleRow.updateMatcher props0 (-7) [8%positive] heap0 = Some h' ∧
    ruleMatchers h' (RuleRow.value props0)
    = Some (pre ++ [8%positive] ++ post) ∧
    pre `prefix_of` [3; 4; 5]%positive ∧
    post `suffix_of` [3; 4; 5]%positive ∧
    (length pre + length post ≤ length [3; 4; 5]%positive)%nat ∧
    (length [3; 4; 5]%positive ≤ length pre + length post + 1)%nat.
Proof.
  split; [reflexivity|].
  apply (updateMatcher_any_index props0 heap0 [3; 4; 5]%positive
           [8%positive] (-7) eq_refl).
Defined.

(** X2. An index at or past the end of the list removes nothing:
    [updateMatcher] then appends the replacements to the list. *)
Theorem updateMatcher_past_end_appends
    (this : RuleRow.RuleRowProps) (h : gmap positive Obj)
    (ms rs : list positive) (index : Z) :
  ruleMatchers h (RuleRow.value this) = Some ms →
  Z.of_nat (length ms) ≤ index →
  ∃ h', RuleRow.updateMatcher this index rs h = Some h' ∧
        ruleMatchers h' (RuleRow.value this) = Some (ms ++ rs).
Proof.
  intros (rule & Hr & Ha)%ruleMatchers_Some Hi.
  destruct (updateMatcher_result this h rule ms rs index Hr Ha)
    as (h' & Hrun & Hr' & Ha').
  exists h'. split; [done|].
  unfold ruleMatchers. rewrite Hr'. simpl.
  by rewrite Ha', splice_one_past_end.
Qed.

Lemma updateMatcher_past_end_appends_witness :
  ruleMatchers heap0 (RuleRow.value props0) = Some [3; 4; 5]%positive ∧
  Z.of_nat (length [3; 4; 5]%positive) ≤ 3 ∧
  ∃ h', RuleRow.updateMatcher props0 3 [8; 9]%positive heap0 = Some h' ∧
        ruleMatchers h' (RuleRow.value props0)
        = Some ([3; 4; 5]%positive ++ [8; 9]%positive).
Proof.
  split; [reflexivity|]. split; [simpl; lia|].
  apply (updateMatcher_past_end_appends props0 heap0 [3; 4; 5]%positive
           [8; 9]%positive 3 eq_refl).
  simpl. lia.
Defined.

(** X3. A negative index counts from the end of the list: for
    [1 <= j <= length ms], [updateMatcher (-j) rs] replaces the matcher at
    position [length ms - j]. *)
Theorem updateMatcher_negative_index
    (this : RuleRow.RuleRowProps) (h : gmap positive Obj)
    (ms rs : list positive) (j : nat) :
  ruleMatchers h (RuleRow.value this) = Some ms →
  (1 ≤ j ≤ length ms)%nat →
  ∃ h', RuleRow.updateMatcher this (- Z.of_nat j) rs h = Some h' ∧
        ruleMatchers h' (RuleRow.value this)
        = Some (take (length ms - j) ms ++ rs
                  ++ drop (length ms - j + 1) ms).
Proof.
  intros (rule & Hr & Ha)%ruleMatchers_Some Hj.
  destruct (updateMatcher_result this h rule ms rs (- Z.of_nat j) Hr Ha)
    as (h' & Hrun & Hr' & Ha').
  exists h'. split; [done|].
  unfold ruleMatchers. rewrite Hr'. simpl.
  by rewrite Ha', splice_one_from_end.
Qed.

Lemma updateMatcher_negative_index_witness :
  ruleMatchers heap0 (RuleRow.value props0) = Some [3; 4; 5]%positive ∧
  (1 ≤ 1 ≤ length [3; 4; 5]%positive)%nat ∧
  ∃ h', RuleRow.updateMatcher props0 (- Z.of_nat 1) [8%positive] heap0
        = Some h' ∧
        ruleMatchers h' (RuleRow.value props0)
        = Some (take (length [3; 4; 5]%positive - 1) [3; 4; 5]%positive
                  ++ [8%positive]
                  ++ drop (length [3; 4; 5]%positive - 1 + 1)
                       [3; 4; 5]%positive).
Proof.
  split; [reflexivity|]. split; [simpl; lia|].
  apply (updateMatcher_negative_index props0 heap0 [3; 4; 5]%positive
           [8%positive] 1 eq_refl).
  simpl. lia.
Defined.

(** X4. On a rule without matchers, which is when the initial matcher
    row has nothing selected yet, [updateMatcher] with any index makes
    the replacements the rule's whole matcher list. *)
Theorem updateMatcher_fills_empty_rule
    (this : RuleRow.RuleRowProps) (h : gmap positive Obj)
    (rs : list positive) (index : Z) :
  ruleMatchers h (RuleRow.value this) = Some [] →
  ∃ h', RuleRow.updateMatcher this index rs h = Some h' ∧
        ruleMatchers h' (RuleRow.value this) = Some rs.
Proof.
  intros (rule & Hr & Ha)%ruleMatchers_Some.
  destruct (updateMatcher_result this h rule [] rs index Hr Ha)
    as (h' & Hrun & Hr' & Ha').
  exists h'. split; [done|].
  unfold ruleMatchers. rewrite Hr'. simpl.
  by rewrite Ha', splice_one_nil.
Qed.

Lemma updateMatcher_fills_empty_rule_witness :
  ruleMatchers heapEmpty (RuleRow.value props0) = Some [] ∧
  ∃ h', RuleRow.updateMatcher props0 0 [3; 4]%positive heapEmpty = Some h' ∧
        ruleMatchers h' (RuleRow.value props0) = Some [3; 4]%positive.
Proof.
  split; [reflexivity|].
  apply (updateMatcher_fills_empty_rule props0 heapEmpty [3; 4]%positive 0).
  reflexivity.
Defined.

(** ** RuleRow: the rows and the operations they call *)

Lemma withoutIdentical_absent (m : positive) (ms : list positive) :
  m ∉ ms → withoutIdentical m ms = ms.
Proof.
  induction ms as [|x rest IH]; [done|].
  intros [Hne Hrest]%not_elem_of_cons. simpl.
  destruct (Pos.eqb_spec x m) as [->|_]; [done|]. by rewrite IH.
Qed.

Lemma withoutIdentical_app (m : positive) (l k : list positive) :
  withoutIdentical m (l ++ k) = withoutIdentical m l ++ withoutIdentical m k.
Proof.
  rewrite <- !filter_withoutIdentical. apply filter_app.
Qed.

Lemma withoutIdentical_length (m : positive) (ms : list positive) :
  (length (withoutIdentical m ms) + length (filter (λ x, x = m) ms)
   = length ms)%nat.
Proof.
  induction ms as [|x rest IH]; [done|]. simpl.
  destruct (Pos.eqb_spec x m) as [->|Hne].
  - rewrite filter_cons_True by done. simpl. lia.
  - rewrite filter_cons_False by done. simpl. lia.
Qed.

Section Rows.

Variable Method : Z → option string.
Variable getMethodColor : string → string.

Lemma render_expanded_rows
    (this : RuleRow.RuleRowProps) (h : gmap positive Obj)
    (ms : list positive) :
  ruleMatchers h (RuleRow.value this) = Some ms →
  RuleRow.collapsed this = false →
  ∃ v, RuleRow.render Method getMethodColor this h = Some v ∧
       initialRow v = Some (head ms) ∧
       existingRows v = imap (λ i m, (Z.of_nat i + 1, m)) (drop 1 ms).
Proof.
  intros (rule & Hr & Ha)%ruleMatchers_Some Hc.
  unfold RuleRow.render. rewrite Hr. simpl. rewrite Ha. simpl.
  rewrite Hc. eexists. split; [reflexivity|]. simpl. split; [|done].
  f_equal. destruct ms as [|m rest]; [done|].
  by rewrite initialMatcher_cons.
Qed.

(** X5. An expanded row shows every matcher of the rule once and in
    order: the initial matcher row holds the first matcher (or nothing
    for an empty rule), the existing-matcher rows hold the others, and
    the index each of them hands to [updateMatcher] is the position of
    its matcher in the rule's list. *)
Theorem rendered_rows_address_their_matchers
    (this : RuleRow.RuleRowProps) (h : gmap positive Obj)
    (ms : list positive) :
  ruleMatchers h (RuleRow.value this) = Some ms →
  RuleRow.collapsed this = false →
  ∃ v, RuleRow.render Method getMethodColor this h = Some v ∧
       initialRow v = Some (ms !! 0%nat) ∧
       (existingRows v).*2 = drop 1 ms ∧
       ∀ k m, (k, m) ∈ existingRows v →
              1 ≤ k < Z.of_nat (length ms) ∧ ms !! Z.to_nat k = Some m.
Proof.
  intros Hms Hc.
  destruct (render_expanded_rows this h ms Hms Hc) as (v & Hv & Hinit & Hrows).
  exists v. split; [done|]. split; [by rewrite Hinit, head_lookup|].
  rewrite Hrows. split.
  - apply list_eq. intros i.
    rewrite list_lookup_fmap, list_lookup_imap.
    by destruct (drop 1 ms !! i).
  - intros k m (i & y & [= -> ->] & Hi)%elem_of_lookup_imap.
    rewrite lookup_drop in Hi.
    pose proof (lookup_lt_Some _ _ _ Hi) as Hlt.
    split; [lia|].
    by replace (Z.to_nat (Z.of_nat i + 1)) with (1 + i)%nat by lia.
Qed.

(** X6. Editing through a row replaces that row's matcher: when an
    existing-matcher row of the expanded view calls [updateMatcher] with
    its index and the matchers [rs], the rule's list changes from
    [pre ++ m :: post] to [pre ++ rs ++ post], where [m] is the row's
    matcher and [pre] are the matchers shown above it. *)
Theorem row_edit_replaces_its_matcher
    (this : RuleRow.RuleRowProps) (h : gmap positive Obj)
    (ms rs : list positive) (v : RowView) (k : Z) (m : positive) :
  ruleMatchers h (RuleRow.value this) = Some ms →
  RuleRow.render Method getMethodColor this h = Some v →
  (k, m) ∈ existingRows v →
  ∃ h' pre post,
    ms = pre ++ m :: post ∧
    Z.of_nat (length pre) = k ∧
    RuleRow.updateMatcher this k rs h = Some h' ∧
    ruleMatchers h' (RuleRow.value this) = Some (pre ++ rs ++ post).
Proof.
  intros Hms Hv Hrow.
  assert (RuleRow.collapsed this = false) as Hc.
  { destruct (RuleRow.collapsed this) eqn:Hc; [|done].
    apply ruleMatchers_Some in Hms as (rule & Hr & Ha).
    unfold RuleRow.render in Hv. rewrite Hr in Hv. simpl in Hv.
    rewrite Ha in Hv. simpl in Hv. rewrite Hc in Hv.
    injection Hv as <-. simpl in Hrow. by apply elem_of_nil in Hrow. }
  destruct (render_expanded_rows this h ms Hms Hc) as (v' & Hv' & _ & Hrows).
  assert (v' = v) as -> by congruence.
  rewrite Hrows in Hrow.
  apply elem_of_lookup_imap in Hrow as (i & y & [= -> ->] & Hi).
  rewrite lookup_drop in Hi.
  pose proof (lookup_lt_Some _ _ _ Hi) as Hlt.
  pose proof Hms as (rule & Hr & Ha)%ruleMatchers_Some.
  destruct (updateMatcher_result this h rule ms rs (Z.of_nat i + 1) Hr Ha)
    as (h' & Hrun & Hr' & Ha').
  exists h', (take (1 + i) ms), (drop (S (1 + i)) ms).
  split; [by rewrite take_drop_middle|].
  split; [rewrite length_take; lia|].
  split; [done|].
  unfold ruleMatchers. rewrite Hr'. simpl. rewrite Ha'.
  replace (Z.of_nat i + 1) with (Z.of_nat (1 + i)) by lia.
  by rewrite splice_one_in_range.
Qed.

End Rows.

Lemma rendered_rows_address_their_matchers_witness :
  ruleMatchers heap0 (RuleRow.value props0) = Some [3; 4; 5]%positive ∧
  RuleRow.collapsed props0 = false ∧
  ∃ v, RuleRow.render Method0 getMethodColor0 props0 heap0 = Some v ∧
       initialRow v = Some ([3; 4; 5]%positive !! 0%nat) ∧
       (existingRows v).*2 = drop 1 [3; 4; 5]%positive ∧
       ∀ k m, (k, m) ∈ existingRows v →
              1 ≤ k < Z.of_nat (length [3; 4; 5]%positive) ∧
              [3; 4; 5]%positive !! Z.to_nat k = Some m.
Proof.
  split; [reflexivity|]. split; [reflexivity|].
  apply (rendered_rows_address_their_matchers Method0 getMethodColor0
           props0 heap0
           [3; 4; 5]%positive eq_refl eq_refl).
Defined.

Lemma row_edit_replaces_its_matcher_witness :
  ruleMatchers heap0 (RuleRow.value props0) = Some [3; 4; 5]%positive ∧
  (∃ v, RuleRow.render Method0 getMethodColor0 props0 heap0 = Some v ∧
        (2, 5%positive) ∈ existingRows v) ∧
  ∃ h' pre post,
    [3; 4; 5]%positive = pre ++ 5%positive :: post ∧
    Z.of_nat (length pre) = 2 ∧
    RuleRow.updateMatcher props0 2 [8; 9]%positive heap0 = Some h' ∧
    ruleMatchers h' (RuleRow.value props0)
    = Some (pre ++ [8; 9]%positive ++ post).
Proof.
  split; [reflexivity|]. split.
  { eexists. split; [reflexivity|]. simpl.
    apply (bool_decide_unpack _). vm_compute. exact I. }
  eapply (row_edit_replaces_its_matcher Method0 getMethodColor0
            props0 heap0 [3; 4; 5]%positive [8; 9]%positive).
  - reflexivity.
  - reflexivity.
  - simpl. apply (bool_decide_unpack _). vm_compute. exact I.
Defined.

(** ** RuleRow: deleting through a row *)

(** X7. Deleting a matcher that occurs once in the rule's list removes
    that one position: from [pre ++ m :: post], with [m] nowhere else,
    the list becomes [pre ++ post]. *)
Theorem deleteMatcher_unique_position
    (this : RuleRow.RuleRowProps) (h : gmap positive Obj)
    (pre post : list positive) (m : positive) :
  ruleMatchers h (RuleRow.value this) = Some (pre ++ m :: post) →
  m ∉ pre → m ∉ post →
  ∃ h', RuleRow.deleteMatcher this m h = Some h' ∧
        ruleMatchers h' (RuleRow.value this) = Some (pre ++ post).
Proof.
  intros (rule & Hr & Ha)%ruleMatchers_Some Hpre Hpost.
  destruct (deleteMatcher_result this h rule _ m Hr Ha)
    as (h' & Hrun & _ & Hr' & Ha' & _).
  exists h'. split; [done|].
  unfold ruleMatchers. rewrite Hr'. simpl. rewrite Ha'.
  rewrite withoutIdentical_app. simpl. rewrite Pos.eqb_refl.
  by rewrite !withoutIdentical_absent.
Qed.

Lemma deleteMatcher_unique_position_witness :
  ruleMatchers heap0 (RuleRow.value props0)
  = Some ([3%positive] ++ 4%positive :: [5%positive]) ∧
  (4%positive ∉ [3%positive]) ∧ (4%positive ∉ [5%positive]) ∧
  ∃ h', RuleRow.deleteMatcher props0 4 heap0 = Some h' ∧
        ruleMatchers h' (RuleRow.value props0)
        = Some ([3%positive] ++ [5%positive]).
Proof.
  split; [reflexivity|]. split; [by_decide|]. split; [by_decide|].
  apply (deleteMatcher_unique_position props0 heap0 [3%positive]
           [5%positive] 4 eq_refl); by_decide.
Defined.

(** X8. Deleting a matcher that is not in the rule's list leaves the
    list's contents as they were, but still replaces the array: the
    rule's [matchers] field then holds a new array object. *)
Theorem deleteMatcher_absent
    (this : RuleRow.RuleRowProps) (h : gmap positive Obj)
    (ms : list positive) (m : positive) :
  ruleMatchers h (RuleRow.value this) = Some ms →
  m ∉ ms →
  ∃ h' a a',
    RuleRow.deleteMatcher this m h = Some h' ∧
    ruleMatchers h' (RuleRow.value this) = Some ms ∧
    ruleMatchersRef h (RuleRow.value this) = Some a ∧
    ruleMatchersRef h' (RuleRow.value this) = Some a' ∧
    a' ≠ a.
Proof.
  intros (rule & Hr & Ha)%ruleMatchers_Some Hm.
  destruct (deleteMatcher_result this h rule _ m Hr Ha)
    as (h' & Hrun & _ & Hr' & Ha' & _).
  exists h', (matchers rule), (fresh (dom h)). split; [done|].
  unfold ruleMatchers, ruleMatchersRef. rewrite Hr, Hr'. simpl.
  rewrite Ha', withoutIdentical_absent by done.
  repeat split.
  apply getArray_Some in Ha. by eapply fresh_not_allocated.
Qed.

Lemma deleteMatcher_absent_witness :
  ruleMatchers heap0 (RuleRow.value props0) = Some [3; 4; 5]%positive ∧
  (6%positive ∉ [3; 4; 5]%positive) ∧
  ∃ h' a a',
    RuleRow.deleteMatcher props0 6 heap0 = Some h' ∧
    ruleMatchers h' (RuleRow.value props0) = Some [3; 4; 5]%positive ∧
    ruleMatchersRef heap0 (RuleRow.value props0) = Some a ∧
    ruleMatchersRef h' (RuleRow.value props0) = Some a' ∧
    a' ≠ a.
Proof.
  split; [reflexivity|]. split; [by_decide|].
  apply (deleteMatcher_absent props0 heap0 [3; 4; 5]%positive 6 eq_refl).
  by_decide.
Defined.

(** X9. Adding a matcher that the rule does not have and then deleting
    it gives back the rule's original matcher list. *)
Theorem addMatcher_then_deleteMatcher
    (this : RuleRow.RuleRowProps) (h : gmap positive Obj)
    (ms : list positive) (m : positive) :
  ruleMatchers h (RuleRow.value this) = Some ms →
  m ∉ ms →
  ∃ h', (RuleRow.addMatcher this m h ≫= RuleRow.deleteMatcher this m)
        = Some h' ∧
        ruleMatchers h' (RuleRow.value this) = Some ms.
Proof.
  intros (rule & Hr & Ha)%ruleMatchers_Some Hm.
  destruct (addMatcher_result this h rule ms m Hr Ha)
    as (h1 & Hrun1 & Hr1 & Ha1).
  destruct (deleteMatcher_result this h1 rule _ m Hr1 Ha1)
    as (h' & Hrun & _ & Hr' & Ha' & _).
  exists h'. rewrite Hrun1. simpl. split; [done|].
  unfold ruleMatchers. rewrite Hr'. simpl. rewrite Ha'.
  rewrite withoutIdentical_app, withoutIdentical_absent by done.
  simpl. rewrite Pos.eqb_refl. by rewrite app_nil_r.
Qed.

Lemma addMatcher_then_deleteMatcher_witness :
  ruleMatchers heap0 (RuleRow.value props0) = Some [3; 4; 5]%positive ∧
  (6%positive ∉ [3; 4; 5]%positive) ∧
  ∃ h', (RuleRow.addMatcher props0 6 heap0
           ≫= RuleRow.deleteMatcher props0 6) = Some h' ∧
        ruleMatchers h' (RuleRow.value props0) = Some [3; 4; 5]%positive.
Proof.
  split; [reflexivity|]. split; [by_decide|].
  apply (addMatcher_then_deleteMatcher props0 heap0 [3; 4; 5]%positive 6
           eq_refl).
  by_decide.
Defined.

(** ** RuleRow: the rest of the store *)

Section Frames.

Implicit Types (h : gmap positive Obj) (this : RuleRow.RuleRowProps).

(** What each operation leaves alone: everything but the array for
    [addMatcher] and [updateMatcher], everything but the rule for
    [updateHandler], everything but the rule and the new array for
    [deleteMatcher]. *)
Lemma run_frame this (o : RuleSession.Op) h rule ms :
  getRule h (RuleRow.value this) = Some rule →
  getArray h (matchers rule) = Some ms →
  ∃ h' rule' ms',
    RuleSession.run this o h = Some h' ∧
    getRule h' (RuleRow.value this) = Some rule' ∧
    getArray h' (matchers rule') = Some ms' ∧
    (∀ l o', h !! l = Some o' → l ≠ RuleRow.value this →
             l ≠ matchers rule → h' !! l = Some o') ∧
    (∀ l, is_Some (h !! l) → is_Some (h' !! l)).
Proof.
  intros Hr Ha.
  pose proof (rule_array_distinct _ _ _ _ _ Hr Ha) as Hne.
  pose proof Hr as Hr0%getRule_Some. pose proof Ha as Ha0%getArray_Some.
  destruct o as [m|index rs|m|hd]; simpl.
  - destruct (addMatcher_result this h rule ms m Hr Ha)
      as (h' & Hrun & Hr' & Ha').
    exists h', rule, (ms ++ [m]). repeat split; try done.
    + intros l o' Hl _ Hla. unfold RuleRow.addMatcher in Hrun.
      rewrite Hr in Hrun. simpl in Hrun. rewrite Ha in Hrun.
      injection Hrun as <-. by rewrite lookup_insert_ne.
    + intros l Hl. unfold RuleRow.addMatcher in Hrun.
      rewrite Hr in Hrun. simpl in Hrun. rewrite Ha in Hrun.
      injection Hrun as <-. apply lookup_insert_is_Some'. by right.
  - destruct (updateMatcher_result this h rule ms rs index Hr Ha)
      as (h' & Hrun & Hr' & Ha').
    exists h', rule, (Js.splice index 1 rs ms). repeat split; try done.
    + intros l o' Hl _ Hla. unfold RuleRow.updateMatcher in Hrun.
      rewrite Hr in Hrun. simpl in Hrun. rewrite Ha in Hrun.
      injection Hrun as <-. by rewrite lookup_insert_ne.
    + intros l Hl. unfold RuleRow.updateMatcher in Hrun.
      rewrite Hr in Hrun. simpl in Hrun. rewrite Ha in Hrun.
      injection Hrun as <-. apply lookup_insert_is_Some'. by right.
  - destruct (deleteMatcher_result this h rule ms m Hr Ha)
      as (h' & Hrun & Hfresh & Hr' & Ha' & Hframe).
    exists h', (mkRule (fresh (dom h)) (handler rule)),
      (withoutIdentical m ms).
    repeat split; try done.
    + intros l o' Hl Hlr _. rewrite Hframe; [done| |done].
      intros ->. congruence.
    + intros l Hl. destruct (decide (l = RuleRow.value this)) as [->|Hlr].
      { apply getRule_Some in Hr'. by rewrite Hr'. }
      rewrite Hframe; [done| |done].
      intros ->. rewrite Hfresh in Hl. by destruct Hl.
  - destruct (updateHandler_result this h rule ms hd Hr Ha)
      as (h' & Hrun & Hr' & Ha').
    exists h', (mkRule (matchers rule) hd), ms. repeat split; try done.
    + intros l o' Hl Hlr _. unfold RuleRow.updateHandler in Hrun.
      rewrite Hr in Hrun. injection Hrun as <-. by rewrite lookup_insert_ne.
    + intros l Hl. unfold RuleRow.updateHandler in Hrun.
      rewrite Hr in Hrun. injection Hrun as <-.
      apply lookup_insert_is_Some'. by right.
Qed.

End Frames.

(** X10. Any sequence of the four editing operations succeeds on a rule
    that has a matcher array, and afterwards the rule still has a
    matcher array and a handler: no operation leaves the rule in a state
    in which a later one fails. *)
Theorem operations_never_fail
    (this : RuleRow.RuleRowProps) (os : list RuleSession.Op)
    (h : gmap positive Obj) (ms : list positive) :
  ruleMatchers h (RuleRow.value this) = Some ms →
  ∃ h' ms' hd,
    RuleSession.runAll this os h = Some h' ∧
    ruleMatchers h' (RuleRow.value this) = Some ms' ∧
    ruleHandler h' (RuleRow.value this) = Some hd.
Proof.
  revert h ms. induction os as [|o rest IH]; intros h ms Hms.
  - apply ruleMatchers_Some in Hms as Hms'. destruct Hms' as (rule & Hr & Ha).
    exists h, ms, (handler rule). split; [done|]. split; [done|].
    unfold ruleHandler. by rewrite Hr.
  - apply ruleMatchers_Some in Hms as (rule & Hr & Ha).
    destruct (run_frame this o h rule ms Hr Ha)
      as (h1 & rule1 & ms1 & Hrun & Hr1 & Ha1 & _).
    destruct (IH h1 ms1) as (h' & ms' & hd & Hall & Hms' & Hhd).
    { apply ruleMatchers_Some. eauto. }
    exists h', ms', hd. simpl. rewrite Hrun. simpl. done.
Qed.

Lemma operations_never_fail_witness :
  ruleMatchers heap0 (RuleRow.value props0) = Some [3; 4; 5]%positive ∧
  ∃ h' ms' hd,
    RuleSession.runAll props0
      [RuleSession.DeleteMatcher 4; RuleSession.UpdateMatcher 9 [3%positive];
       RuleSession.UpdateHandler 3; RuleSession.AddMatcher 6] heap0
    = Some h' ∧
    ruleMatchers h' (RuleRow.value props0) = Some ms' ∧
    ruleHandler h' (RuleRow.value props0) = Some hd.
Proof.
  split; [reflexivity|].
  apply (operations_never_fail props0 _ heap0 [3; 4; 5]%positive eq_refl).
Defined.

(** X11. Editing one rule leaves every other rule as it was: a rule at
    another place that has its own matcher array keeps its matcher list,
    its array object and its handler through any of the four
    operations. *)
Theorem other_rules_untouched
    (this : RuleRow.RuleRowProps) (o : RuleSession.Op)
    (h : gmap positive Obj) (rule other : HtkMockRule)
    (ms ms2 : list positive) (r2 : positive) :
  getRule h (RuleRow.value this) = Some rule →
  getArray h (matchers rule) = Some ms →
  getRule h r2 = Some other →
  getArray h (matchers other) = Some ms2 →
  r2 ≠ RuleRow.value this →
  matchers other ≠ matchers rule →
  ∃ h', RuleSession.run this o h = Some h' ∧
        getRule h' r2 = Some other ∧
        ruleMatchers h' r2 = Some ms2.
Proof.
  intros Hr Ha Hr2 Ha2 Hne Hnea.
  destruct (run_frame this o h rule ms Hr Ha)
    as (h' & _ & _ & Hrun & _ & _ & Hframe & _).
  exists h'. split; [done|].
  assert (getRule h' r2 = Some other) as Hr2'.
  { apply getRule_Some. apply getRule_Some in Hr2.
    apply (Hframe _ _ Hr2); [done|].
    intros ->. apply getArray_Some in Ha. congruence. }
  split; [done|].
  unfold ruleMatchers. rewrite Hr2'. simpl.
  apply getArray_Some. apply getArray_Some in Ha2.
  apply (Hframe _ _ Ha2); [|done].
  intros Heq. apply getRule_Some in Hr. congruence.
Qed.

Lemma other_rules_untouched_witness :
  getRule heapTwo (RuleRow.value props0) = Some (mkRule 2 6) ∧
  getArray heapTwo 2 = Some [3; 4]%positive ∧
  getRule heapTwo 8 = Some (mkRule 9 6) ∧
  getArray heapTwo 9 = Some [4%positive] ∧
  ∃ h', RuleSession.run props0 (RuleSession.DeleteMatcher 4) heapTwo
        = Some h' ∧
        getRule h' 8 = Some (mkRule 9 6) ∧
        ruleMatchers h' 8 = Some [4%positive].
Proof.
  split; [reflexivity|]. split; [reflexivity|].
  split; [reflexivity|]. split; [reflexivity|].
  apply (other_rules_untouched props0 (RuleSession.DeleteMatcher 4) heapTwo
           (mkRule 2 6) (mkRule 9 6) [3; 4]%positive [4%positive] 8
           eq_refl eq_refl eq_refl eq_refl); by_decide.
Defined.

(** X12. When two rules share one matcher array, [addMatcher] and
    [updateMatcher] through one of them change the list of both, while
    [deleteMatcher] changes only the list of the rule it is called on:
    the other rule keeps the old list. *)
Theorem shared_array_edits
    (this : RuleRow.RuleRowProps) (h : gmap positive Obj)
    (rule other : HtkMockRule) (ms : list positive) (r2 : positive) :
  getRule h (RuleRow.value this) = Some rule →
  getArray h (matchers rule) = Some ms →
  getRule h r2 = Some other →
  matchers other = matchers rule →
  r2 ≠ RuleRow.value this →
  (∀ m, ∃ h', RuleRow.addMatcher this m h = Some h' ∧
              ruleMatchers h' r2 = Some (ms ++ [m])) ∧
  (∀ index rs,
     ∃ h', RuleRow.updateMatcher this index rs h = Some h' ∧
           ruleMatchers h' r2 = Some (Js.splice index 1 rs ms)) ∧
  (∀ m, ∃ h', RuleRow.deleteMatcher this m h = Some h' ∧
              ruleMatchers h' r2 = Some ms ∧
              ruleMatchers h' (RuleRow.value this)
              = Some (withoutIdentical m ms)).
Proof.
  intros Hr Ha Hr2 Hshared Hne.
  assert (getArray h (matchers other) = Some ms) as Ha2 by by rewrite Hshared.
  split; [|split].
  - intros m. unfold RuleRow.addMatcher. rewrite Hr. simpl. rewrite Ha. simpl.
    eexists. split; [reflexivity|]. rewrite <- Hshared.
    by apply ruleMatchers_write with (ms := ms).
  - intros index rs. unfold RuleRow.updateMatcher.
    rewrite Hr. simpl. rewrite Ha. simpl.
    eexists. split; [reflexivity|]. rewrite <- Hshared.
    by apply ruleMatchers_write with (ms := ms).
  - intros m.
    destruct (deleteMatcher_result this h rule ms m Hr Ha)
      as (h' & Hrun & Hfresh & Hr' & Ha' & Hframe).
    exists h'. split; [done|]. split.
    + assert (getRule h' r2 = Some other) as Hr2'.
      { apply getRule_Some. apply getRule_Some in Hr2.
        rewrite Hframe; [done| |done]. intros ->. congruence. }
      unfold ruleMatchers. rewrite Hr2'. simpl. rewrite Hshared.
      apply getArray_Some. apply getArray_Some in Ha.
      rewrite Hframe; [done| |].
      * intros Heq. congruence.
      * intros Heq. apply getRule_Some in Hr. congruence.
    + unfold ruleMatchers. rewrite Hr'. simpl. exact Ha'.
Qed.

Lemma shared_array_edits_witness :
  getRule heapShared (RuleRow.value props0) = Some (mkRule 2 6) ∧
  getArray heapShared 2 = Some [3; 4]%positive ∧
  getRule heapShared 8 = Some (mkRule 2 6) ∧
  ∃ h', RuleRow.deleteMatcher props0 4 heapShared = Some h' ∧
        ruleMatchers h' 8 = Some [3; 4]%positive ∧
        ruleMatchers h' (RuleRow.value props0)
        = Some (withoutIdentical 4 [3; 4]%positive).
Proof.
  split; [reflexivity|]. split; [reflexivity|]. split; [reflexivity|].
  apply (shared_array_edits props0 heapShared (mkRule 2 6) (mkRule 2 6)
           [3; 4]%positive 8 eq_refl eq_refl eq_refl eq_refl).
  by_decide.
Defined.

(** ** RuleRow: handler edits and matcher edits *)

(** X13. Replacing the handler and editing the matchers can be done in
    either order: for each of [addMatcher], [updateMatcher] and
    [deleteMatcher], running it before or after [updateHandler] gives
    the same store. *)
Theorem handler_edit_commutes
    (this : RuleRow.RuleRowProps) (h : gmap positive Obj)
    (ms : list positive) (hd : positive) :
  ruleMatchers h (RuleRow.value this) = Some ms →
  (∀ m, RuleRow.addMatcher this m h ≫= RuleRow.updateHandler this hd
        = RuleRow.updateHandler this hd h ≫= RuleRow.addMatcher this m) ∧
  (∀ index rs,
     RuleRow.updateMatcher this index rs h ≫= RuleRow.updateHandler this hd
     = RuleRow.updateHandler this hd h
         ≫= RuleRow.updateMatcher this index rs) ∧
  (∀ m, RuleRow.deleteMatcher this m h ≫= RuleRow.updateHandler this hd
        = RuleRow.updateHandler this hd h ≫= RuleRow.deleteMatcher this m).
Proof.
  intros (rule & Hr & Ha)%ruleMatchers_Some.
  pose proof (rule_array_distinct _ _ _ _ _ Hr Ha) as Hne.
  set (r := RuleRow.value this) in *.
  assert (∀ x, getRule (<[matchers rule := OArray x]> h) r = Some rule)
    as Hr1.
  { intros x. by rewrite getRule_insert_array. }
  assert (∀ x, getArray (<[r := ORule x]> h) (matchers rule) = Some ms)
    as Ha1.
  { intros x. by rewrite getArray_insert_ne. }
  split; [|split].
  - intros m. unfold RuleRow.addMatcher, RuleRow.updateHandler. fold r.
    rewrite Hr. simpl. rewrite Ha. simpl.
    rewrite Hr1, getRule_insert_eq. simpl. rewrite Ha1. simpl.
    f_equal. by apply insert_insert_ne.
  - intros index rs. unfold RuleRow.updateMatcher, RuleRow.updateHandler.
    fold r. rewrite Hr. simpl. rewrite Ha. simpl.
    rewrite Hr1, getRule_insert_eq. simpl. rewrite Ha1. simpl.
    f_equal. by apply insert_insert_ne.
  - intros m. unfold RuleRow.deleteMatcher, RuleRow.updateHandler. fold r.
    rewrite Hr. simpl. rewrite Ha. simpl.
    rewrite !getRule_insert_eq. simpl. rewrite Ha1. simpl.
    assert (dom (<[r := ORule (mkRule (matchers rule) hd)]> h) = dom h)
      as ->.
    { apply dom_insert_lookup_L. apply getRule_Some in Hr. eauto. }
    assert (r ≠ fresh (dom h)) as Hfresh.
    { intros Heq. apply getRule_Some in Hr.
      by apply (fresh_not_allocated _ _ _ Hr). }
    f_equal. rewrite insert_insert_eq.
    rewrite (insert_insert_ne _ (fresh (dom h)) r) by done.
    by rewrite insert_insert_eq.
Qed.

Lemma handler_edit_commutes_witness :
  ruleMatchers heap0 (RuleRow.value props0) = Some [3; 4; 5]%positive ∧
  ∀ m, RuleRow.deleteMatcher props0 m heap0 ≫= RuleRow.updateHandler props0 3
       = RuleRow.updateHandler props0 3 heap0
           ≫= RuleRow.deleteMatcher props0 m.
Proof.
  split; [reflexivity|].
  apply (handler_edit_commutes props0 heap0 [3; 4; 5]%positive 3 eq_refl).
Defined.

(** ** RuleRow: when the border colour changes *)

Lemma splice_one_keeps_head {A : Type} (index : Z) (rs rest : list A)
    (m : A) :
  1 ≤ index →
  ∃ rest', Js.splice index 1 rs (m :: rest) = m :: rest'.
Proof.
  intros Hi. unfold Js.splice. cbv zeta.
  assert ((index <? 0) = false) as -> by lia.
  set (start := Z.min index (Z.of_nat (length (m :: rest)))).
  assert (1 ≤ start) as Hstart.
  { subst start. simpl length. lia. }
  destruct (Z.to_nat start) as [|n] eqn:E; [lia|].
  simpl. eauto.
Qed.

Section BorderStable.

Variable Method : Z → option string.
Variable getMethodColor : string → string.

Lemma displayedMethod_head (h h' : gmap positive Obj)
    (m : positive) (rest rest' : list positive) :
  getMatcher h' m = getMatcher h m →
  RuleRow.displayedMethod Method h' (m :: rest')
  = RuleRow.displayedMethod Method h (m :: rest).
Proof.
  intros Hm. unfold RuleRow.displayedMethod.
  by rewrite !initialMatcher_cons, Hm.
Qed.

Lemma render_border (this : RuleRow.RuleRowProps) (h : gmap positive Obj)
    (rule : HtkMockRule) (ms : list positive) :
  getRule h (RuleRow.value this) = Some rule →
  getArray h (matchers rule) = Some ms →
  borderColor <$> RuleRow.render Method getMethodColor this h
  = Some (RuleRow.methodBorderColor getMethodColor
            (RuleRow.displayedMethod Method h ms)).
Proof.
  intros Hr Ha. unfold RuleRow.render. rewrite Hr. simpl. by rewrite Ha.
Qed.

(** Deleting changes two places of the store, neither of them a
    matcher before or after. *)
Lemma deleteMatcher_keeps_matcher_objects
    (this : RuleRow.RuleRowProps) (h h' : gmap positive Obj)
    (rule : HtkMockRule) (ms : list positive) (m x : positive) :
  getRule h (RuleRow.value this) = Some rule →
  getArray h (matchers rule) = Some ms →
  RuleRow.deleteMatcher this m h = Some h' →
  getMatcher h' x = getMatcher h x.
Proof.
  intros Hr Ha Hrun.
  destruct (deleteMatcher_result this h rule ms m Hr Ha)
    as (h'' & Hrun' & Hfresh & Hr' & Ha' & Hframe).
  assert (h'' = h') as -> by congruence.
  destruct (decide (x = RuleRow.value this)) as [->|Hxr].
  { apply getRule_Some in Hr, Hr'. unfold getMatcher. by rewrite Hr, Hr'. }
  destruct (decide (x = fresh (dom h))) as [->|Hxa].
  { apply getArray_Some in Ha'. unfold getMatcher. by rewrite Ha', Hfresh. }
  unfold getMatcher. by rewrite Hframe.
Qed.

(** X14. Only an edit of the first matcher can change the border colour
    of a rule row: on a rule with at least one matcher, appending a
    matcher, replacing at an index of 1 or more, deleting a matcher
    other than the first, and replacing the handler all leave the
    rendered border colour as it was. *)
Theorem border_changes_only_with_first_matcher
    (this : RuleRow.RuleRowProps) (h : gmap positive Obj)
    (m0 : positive) (rest : list positive) (o : RuleSession.Op) :
  ruleMatchers h (RuleRow.value this) = Some (m0 :: rest) →
  match o with
  | RuleSession.UpdateMatcher index _ => 1 ≤ index
  | RuleSession.DeleteMatcher m => m ≠ m0
  | _ => True
  end →
  ∃ h', RuleSession.run this o h = Some h' ∧
        borderColor <$> RuleRow.render Method getMethodColor this h'
        = borderColor <$> RuleRow.render Method getMethodColor this h.
Proof.
  intros (rule & Hr & Ha)%ruleMatchers_Some Hside.
  rewrite (render_border this h rule _ Hr Ha).
  destruct o as [m|index rs|m|hd]; simpl.
  - destruct (addMatcher_result this h rule _ m Hr Ha)
      as (h' & Hrun & Hr' & Ha').
    exists h'. split; [done|].
    rewrite (render_border this h' rule _ Hr' Ha'). f_equal. f_equal.
    simpl. apply displayedMethod_head.
    unfold RuleRow.addMatcher in Hrun. rewrite Hr in Hrun. simpl in Hrun.
    rewrite Ha in Hrun. injection Hrun as <-.
    by apply getMatcher_write_array with (ms := m0 :: rest).
  - destruct (updateMatcher_result this h rule _ rs index Hr Ha)
      as (h' & Hrun & Hr' & Ha').
    exists h'. split; [done|].
    rewrite (render_border this h' rule _ Hr' Ha'). f_equal. f_equal.
    destruct (splice_one_keeps_head index rs rest m0 Hside) as [rest' ->].
    apply displayedMethod_head.
    unfold RuleRow.updateMatcher in Hrun. rewrite Hr in Hrun. simpl in Hrun.
    rewrite Ha in Hrun. injection Hrun as <-.
    by apply getMatcher_write_array with (ms := m0 :: rest).
  - destruct (deleteMatcher_result this h rule _ m Hr Ha)
      as (h' & Hrun & _ & Hr' & Ha' & _).
    exists h'. split; [done|].
    rewrite (render_border this h' _ _ Hr' Ha'). f_equal. f_equal.
    simpl. destruct (Pos.eqb_spec m0 m) as [->|_]; [done|].
    apply displayedMethod_head.
    by apply (deleteMatcher_keeps_matcher_objects this h h' rule
                (m0 :: rest) m).
  - destruct (updateHandler_result this h rule _ hd Hr Ha)
      as (h' & Hrun & Hr' & Ha').
    exists h'. split; [done|].
    rewrite (render_border this h' _ _ Hr' Ha'). f_equal. f_equal.
    apply displayedMethod_head.
    unfold RuleRow.updateHandler in Hrun. rewrite Hr in Hrun.
    injection Hrun as <-. unfold getMatcher.
    destruct (decide (RuleRow.value this = m0)) as [<-|Hne].
    + apply getRule_Some in Hr. by rewrite lookup_insert_eq, Hr.
    + by rewrite lookup_insert_ne.
Qed.

End BorderStable.

Lemma border_changes_only_with_first_matcher_witness :
  ruleMatchers heap0 (RuleRow.value props0)
  = Some (3%positive :: [4; 5]%positive) ∧
  ∃ h', RuleSession.run props0 (RuleSession.UpdateMatcher 1 [6%positive])
          heap0 = Some h' ∧
        borderColor <$> RuleRow.render Method0 getMethodColor0 props0 h'
        = borderColor <$> RuleRow.render Method0 getMethodColor0 props0
                            heap0.
Proof.
  split; [reflexivity|].
  apply (border_changes_only_with_first_matcher Method0 getMethodColor0
           props0 heap0 3 [4; 5]%positive
           (RuleSession.UpdateMatcher 1 [6%positive]) eq_refl).
  simpl. lia.
Defined.

Example border_changes_with_first_matcher :
  (RuleRow.updateMatcher props0 0 [4%positive] heap0
     ≫= λ h', borderColor <$> RuleRow.render Method0 getMethodColor0 props0 h')
  = Some "#888" ∧
  borderColor <$> RuleRow.render Method0 getMethodColor0 props0 heap0
  = Some "#ff8c38".
Proof. split; vm_compute; reflexivity. Qed.

(** ** InterceptOption: clicks, sessions and placement *)

Module CardSessionFacts.

Import InterceptOption CardSession.

Lemma run_interceptor (o : Op) (w : World) :
  interceptor (run o w) = interceptor w.
Proof.
  destruct o as [| | |options|[]]; simpl; try done.
  unfold onClick. destruct (isActivable _); simpl; [|done].
  by destruct (uiConfig _).
Qed.

Lemma run_configReady (o : Op) (w : World) :
  configReady w → configReady (run o w).
Proof.
  unfold configReady. rewrite run_interceptor.
  destruct o as [| | |options|[]]; simpl; try done.
  unfold onClick. destruct (isActivable _) eqn:Hact; simpl; [|done].
  destruct (uiConfig _) eqn:Hui; simpl; [|done].
  intros _ _. split; [done|]. eauto.
Qed.

Lemma runAll_configReady (os : list Op) (w : World) :
  configReady w →
  configReady (runAll os w) ∧ interceptor (runAll os w) = interceptor w.
Proof.
  revert w. induction os as [|o rest IH]; intros w Hw; [done|].
  simpl. destruct (IH (run o w)) as [Hready Hsame].
  { by apply run_configReady. }
  split; [done|]. by rewrite Hsame, run_interceptor.
Qed.

Lemma config_shown_iff (w : World) :
  configReady w →
  match cardBody (render w) with
  | ConfigBody c =>
      expanded w = true ∧
      (configComponent <$> uiConfig (interceptor w)) = Some c
  | SummaryBody _ _ _ => expanded w = false
  end.
Proof.
  unfold configReady, render. simpl. intros Hready.
  destruct (uiConfig (interceptor w)) as [c|] eqn:Hui.
  - by destruct (expanded w).
  - destruct (expanded w); [|done].
    destruct Hready as [_ [? [=]]]. done.
Qed.

End CardSessionFacts.


(** X16. A card that starts collapsed is expanded, after any sequence of
    its operations, only for an activable interceptor with a custom UI
    config; so what the card shows is the config component exactly when
    it is expanded, and the interceptor is the one it started with. *)
Theorem expanded_only_with_config
    (os : list InterceptOption.Op) (w : InterceptOption.World) :
  InterceptOption.expanded w = false →
  let i := InterceptOption.interceptor w in
  let w' := CardSession.runAll os w in
  InterceptOption.interceptor w' = i ∧
  (InterceptOption.expanded w' = true →
     isActivable i = true ∧ is_Some (uiConfig i)) ∧
  match cardBody (InterceptOption.render w') with
  | ConfigBody c =>
      InterceptOption.expanded w' = true ∧
      (configComponent <$> uiConfig i) = Some c
  | SummaryBody _ _ _ => InterceptOption.expanded w' = false
  end.
Proof.
  intros Hcollapsed i w'. subst i w'.
  destruct (CardSessionFacts.runAll_configReady os w) as [Hready Hsame].
  { intros Hexp. congruence. }
  split; [done|]. split.
  - intros Hexp. rewrite <- Hsame. by apply Hready.
  - rewrite <- Hsame. by apply CardSessionFacts.config_shown_iff.
Qed.

Lemma expanded_only_with_config_witness :
  InterceptOption.expanded (world0 manual) = false ∧
  InterceptOption.interceptor
    (CardSession.runAll
       [InterceptOption.OpOnClick; InterceptOption.OpActivateInterceptor None]
       (world0 manual))
  = manual.
Proof.
  split; [reflexivity|].
  apply (expanded_only_with_config
           [InterceptOption.OpOnClick;
            InterceptOption.OpActivateInterceptor None]
           (world0 manual) eq_refl).
Defined.

(** X17. For an interceptor that is not activable, nothing the card
    offers reaches the interceptor store: after any sequence of
    operations, each offered by the card as rendered at that point, the
    store has been asked for nothing and the card is still collapsed. *)
Theorem disabled_card_never_activates
    (os : list InterceptOption.Op) (w : InterceptOption.World) :
  isActivable (InterceptOption.interceptor w) = false →
  InterceptOption.expanded w = false →
  CardSession.allOffered os w = true →
  InterceptOption.storeCalls
    (InterceptOption.effects (CardSession.runAll os w))
  = InterceptOption.storeCalls (InterceptOption.effects w) ∧
  InterceptOption.expanded (CardSession.runAll os w) = false.
Proof.
  revert w. induction os as [|o rest IH]; intros w Hact Hexp Hoff; [done|].
  simpl in Hoff. apply andb_true_iff in Hoff as [Ho Hrest].
  assert (InterceptOption.interceptor (InterceptOption.run o w)
          = InterceptOption.interceptor w) as Hsame
    by apply CardSessionFacts.run_interceptor.
  assert (InterceptOption.expanded (InterceptOption.run o w) = false ∧
          InterceptOption.storeCalls
            (InterceptOption.effects (InterceptOption.run o w))
          = InterceptOption.storeCalls (InterceptOption.effects w))
    as [Hexp' Hcalls].
  { destruct o as [| | |options|[]]; simpl.
    - done.
    - unfold InterceptOption.onClick. rewrite Hact. simpl.
      split; [done|].
      rewrite InterceptOptionFacts.storeCalls_app. simpl.
      by rewrite app_nil_r.
    - done.
    - unfold CardSession.offered, InterceptOption.render in Ho.
      simpl in Ho. rewrite Hexp in Ho.
      by destruct (uiConfig (InterceptOption.interceptor w)).
    - split; [done|].
      rewrite !InterceptOptionFacts.storeCalls_app. simpl.
      by rewrite !app_nil_r.
    - done. }
  simpl. destruct (IH (InterceptOption.run o w)) as [Hcalls' Hexp''];
    [by rewrite Hsame|done|done|].
  split; [|done]. by rewrite Hcalls', Hcalls.
Qed.

Lemma disabled_card_never_activates_witness :
  isActivable (InterceptOption.interceptor (world0 docker)) = false ∧
  InterceptOption.expanded (world0 docker) = false ∧
  CardSession.allOffered
    [InterceptOption.OpOnClick; InterceptOption.OpRender;
     InterceptOption.OpOnClick] (world0 docker) = true ∧
  InterceptOption.storeCalls
    (InterceptOption.effects
       (CardSession.runAll
          [InterceptOption.OpOnClick; InterceptOption.OpRender;
           InterceptOption.OpOnClick] (world0 docker)))
  = InterceptOption.storeCalls (InterceptOption.effects (world0 docker)).
Proof.
  split; [reflexivity|]. split; [reflexivity|]. split; [reflexivity|].
  apply (disabled_card_never_activates
           [InterceptOption.OpOnClick; InterceptOption.OpRender;
            InterceptOption.OpOnClick] (world0 docker)
           eq_refl eq_refl eq_refl).
Defined.

(** X18. Clicking a collapsed card and then closing it shows the card
    exactly as it was shown before the click. *)
Theorem click_then_close_restores_view (w : InterceptOption.World) :
  InterceptOption.expanded w = false →
  InterceptOption.render (InterceptOption.onClose (InterceptOption.onClick w))
  = InterceptOption.render w.
Proof.
  intros Hexp. unfold InterceptOption.onClick, InterceptOption.render.
  destruct (isActivable (InterceptOption.interceptor w)) eqn:Hact; simpl;
    [destruct (uiConfig (InterceptOption.interceptor w)) eqn:Hui; simpl|];
    by rewrite ?Hact, ?Hui, Hexp.
Qed.

Lemma click_then_close_restores_view_witness :
  InterceptOption.expanded (world0 manual) = false ∧
  InterceptOption.render
    (InterceptOption.onClose (InterceptOption.onClick (world0 manual)))
  = InterceptOption.render (world0 manual).
Proof.
  split; [reflexivity|].
  apply (click_then_close_restores_view (world0 manual) eq_refl).
Defined.



(** X20. The card asks to show the requests only from the continuation
    of an activation that succeeded: among the effects any operation
    adds, [ShowRequests] occurs exactly for that one. *)
Theorem showRequests_only_after_success
    (o : InterceptOption.Op) (w : InterceptOption.World)
    (new : list Effect) :
  InterceptOption.effects (InterceptOption.run o w)
  = InterceptOption.effects w ++ new →
  (ShowRequests ∈ new ↔ o = InterceptOption.OpOnActivated true).
Proof.
  intros Hnew.
  assert (∀ added,
            InterceptOption.effects w ++ added
            = InterceptOption.effects w ++ new → new = added) as Hinv.
  { intros added Heq. by apply app_inv_head in Heq. }
  destruct o as [| | |options|[]]; simpl in Hnew.
  - rewrite (Hinv []) by (by rewrite app_nil_r).
    rewrite elem_of_nil. split; [done|discriminate].
  - unfold InterceptOption.onClick in Hnew.
    destruct (isActivable _); simpl in Hnew;
      [destruct (uiConfig _); simpl in Hnew|];
      rewrite <- ?app_assoc in Hnew; rewrite (Hinv _ Hnew); simpl;
      rewrite ?elem_of_cons, elem_of_nil;
      (split; [intros H; decompose [or] H; discriminate || done
              | discriminate]).
  - rewrite (Hinv []) by (by rewrite app_nil_r).
    rewrite elem_of_nil. split; [done|discriminate].
  - rewrite (Hinv _ Hnew). rewrite list_elem_of_singleton.
    split; discriminate.
  - rewrite <- app_assoc in Hnew. rewrite (Hinv _ Hnew). simpl.
    rewrite !elem_of_cons. split; [done|]. intros _. right. by left.
  - rewrite (Hinv []) by (by rewrite app_nil_r).
    rewrite elem_of_nil. split; [done|discriminate].
Qed.

Lemma showRequests_only_after_success_witness :
  InterceptOption.effects
    (InterceptOption.run (InterceptOption.OpOnActivated true) (world0 chrome))
  = InterceptOption.effects (world0 chrome)
      ++ [TrackEvent "Interceptors" "Successfully Activated" "fresh-chrome";
          ShowRequests] ∧
  (ShowRequests
     ∈ [TrackEvent "Interceptors" "Successfully Activated" "fresh-chrome";
        ShowRequests]
   ↔ InterceptOption.OpOnActivated true = InterceptOption.OpOnActivated true).
Proof.
  split; [reflexivity|].
  apply (showRequests_only_after_success
           (InterceptOption.OpOnActivated true) (world0 chrome)).
  reflexivity.
Defined.

(** ** ExchangeBreakpointResponseCard: the emitted status code *)


(** ** RuleRow: the new-matcher row *)

(** X22. The row that adds a matcher is shown only for an expanded rule
    that already has a matcher; so a matcher added through it goes after
    the rule's first matcher, which stays the first. *)
Theorem new_matcher_row_never_adds_first
    (Method : Z → option string) (getMethodColor : string → string)
    (this : RuleRow.RuleRowProps) (h : gmap positive Obj)
    (ms : list positive) (v : RowView) (m : positive) :
  ruleMatchers h (RuleRow.value this) = Some ms →
  RuleRow.render Method getMethodColor this h = Some v →
  newMatcherRow v = true →
  RuleRow.collapsed this = false ∧
  ∃ h' m0 rest,
    ms = m0 :: rest ∧
    RuleRow.addMatcher this m h = Some h' ∧
    ruleMatchers h' (RuleRow.value this) = Some (m0 :: rest ++ [m]) ∧
    (RuleRow.initialMatcher <$> ruleMatchers h' (RuleRow.value this))
    = Some (RuleRow.initialMatcher ms).
Proof.
  intros Hms Hv Hnew.
  pose proof Hms as (rule & Hr & Ha)%ruleMatchers_Some.
  unfold RuleRow.render in Hv. rewrite Hr in Hv. simpl in Hv.
  rewrite Ha in Hv. simpl in Hv. injection Hv as <-. simpl in Hnew.
  apply andb_true_iff in Hnew as [Hc Hlen].
  split; [by destruct (RuleRow.collapsed this)|].
  destruct ms as [|m0 rest]; [done|].
  destruct (addMatcher_result this h rule _ m Hr Ha)
    as (h' & Hrun & Hr' & Ha').
  exists h', m0, rest. split; [done|]. split; [done|].
  assert (ruleMatchers h' (RuleRow.value this) = Some (m0 :: rest ++ [m]))
    as Hms'.
  { unfold ruleMatchers. rewrite Hr'. simpl. exact Ha'. }
  split; [done|]. rewrite Hms'. simpl.
  by rewrite !initialMatcher_cons.
Qed.

Lemma new_matcher_row_never_adds_first_witness :
  ruleMatchers heap0 (RuleRow.value props0) = Some [3; 4; 5]%positive ∧
  (newMatcherRow <$> RuleRow.render Method0 getMethodColor0 props0 heap0)
  = Some true ∧
  ∃ h' m0 rest,
    [3; 4; 5]%positive = m0 :: rest ∧
    RuleRow.addMatcher props0 6 heap0 = Some h' ∧
    ruleMatchers h' (RuleRow.value props0) = Some (m0 :: rest ++ [6%positive]) ∧
    (RuleRow.initialMatcher <$> ruleMatchers h' (RuleRow.value props0))
    = Some (RuleRow.initialMatcher [3; 4; 5]%positive).
Proof.
  split; [reflexivity|]. split; [reflexivity|].
  eapply (new_matcher_row_never_adds_first Method0 getMethodColor0
            props0 heap0 [3; 4; 5]%positive _ 6 eq_refl eq_refl).
  reflexivity.
Defined.

Example new_matcher_row_hidden_for_empty_rule :
  (newMatcherRow <$> RuleRow.render Method0 getMethodColor0 props0 heapEmpty)
  = Some false.
Proof. reflexivity. Qed.
